(** * Cost allocation engine of the insurance comparison app

    A shallow embedding of [calculate_service_costs],
    [calculate_annual_cost] and [generate_cost_curve_data] of [app.py],
    with the properties of the allocation (deductible depletion,
    out-of-pocket normalisation, error propagation, curve synthesis), and
    of what surrounds them in the file: [get_insurer_colors], [to_dict] and
    the plan loader, and the computing parts of [main] (sidebar usage,
    emergency scenario, table rows, order of the plans).

    Numbers: Python's [int] and [float] values are both embedded in the
    rationals [Q], with exact arithmetic; equality of amounts is [Qeq]
    ([==]).  Exceptions are the left injection of a sum type. *)

From Stdlib Require Import QArith Qround Qabs ZArith List String Ascii Bool Lqa Lia.
From Stdlib Require Import Permutation Sorted OrderedTypeEx.
Import ListNotations.
Open Scope Q_scope.

(** ** Exceptions *)

Inductive error : Type :=
| KeyError (key : string)
| TypeError
| ZeroDivisionError
| AssertionError.

Definition result (A : Type) : Type := (error + A)%type.

Definition ret {A} (a : A) : result A := inr a.
Definition raise {A} (e : error) : result A := inl e.
Definition bind {A B} (c : result A) (k : A -> result B) : result B :=
  match c with
  | inl e => inl e
  | inr a => k a
  end.

Notation "x <- c ;; k" := (bind c (fun x => k))
  (at level 61, c at next level, right associativity).

(** ** Python built-ins on numbers *)

Definition Qltb (x y : Q) : bool := negb (Qle_bool y x).

(** [min(a, b)] is [a] unless [b < a]; [max(a, b)] is [a] unless [b > a]. *)
Definition py_min (a b : Q) : Q := if Qltb b a then b else a.
Definition py_max (a b : Q) : Q := if Qltb a b then b else a.

(** [round(x)] with one argument: nearest integer, ties to the even one. *)
Definition py_round (x : Q) : Z :=
  let f := Qfloor x in
  let r := x - inject_Z f in
  if Qltb r (1 # 2) then f
  else if Qltb (1 # 2) r then (f + 1)%Z
  else if Z.even f then f else (f + 1)%Z.

(** [sum(xs)]: left fold from 0. *)
Definition py_sum (xs : list Q) : Q := fold_left Qplus xs 0.

(** [a / b] on numbers. *)
Definition py_div (a b : Q) : result Q :=
  if Qeq_bool b 0 then raise ZeroDivisionError else ret (a / b).

(** [range(n)] *)
Definition range (n : Z) : list Z := map Z.of_nat (seq 0 (Z.to_nat n)).

(** [s.split(sep)] for a one-character separator. *)
Fixpoint split (sep : ascii) (s : string) : list string :=
  match s with
  | EmptyString => [EmptyString]
  | String a rest =>
      if Ascii.eqb a sep then EmptyString :: split sep rest
      else match split sep rest with
           | h :: t => String a h :: t
           | [] => [String a EmptyString]
           end
  end.

(** ** Dictionaries (insertion ordered, keyed by strings) *)

Definition dict (V : Type) : Type := list (string * V).

Fixpoint dict_get {V} (d : dict V) (k : string) : option V :=
  match d with
  | [] => None
  | (k', v) :: d' => if String.eqb k k' then Some v else dict_get d' k
  end.

(** [d[k] = v]: overwrite in place, or append a new key at the end. *)
Fixpoint dict_set {V} (d : dict V) (k : string) (v : V) : dict V :=
  match d with
  | [] => [(k, v)]
  | (k', v') :: d' =>
      if String.eqb k k' then (k', v) :: d' else (k', v') :: dict_set d' k v
  end.

Definition keys {V} (d : dict V) : list string := map fst d.
Definition values {V} (d : dict V) : list V := map snd d.

(** [d[k]] on a dictionary of the program's own tables. *)
Definition lookup {V} (d : dict V) (k : string) : result V :=
  match dict_get d k with
  | Some v => ret v
  | None => raise (KeyError k)
  end.

(** ** Plan data, as loaded from JSON *)

#[warnings="-register-all"]
Inductive value : Type :=
| VNum (q : Q)
| VBool (b : bool)
| VDict (items : list (string * value)).

(** [v[k]] *)
Definition getitem (v : value) (k : string) : result value :=
  match v with
  | VDict d => lookup d k
  | _ => raise TypeError
  end.

(** [k in v] *)
Definition contains (k : string) (v : value) : result bool :=
  match v with
  | VDict d => ret (match dict_get d k with Some _ => true | None => false end)
  | _ => raise TypeError
  end.

(** Use of a value in arithmetic or in a comparison with a number. *)
Definition as_num (v : value) : result Q :=
  match v with
  | VNum q => ret q
  | VBool b => ret (if b then 1 else 0)
  | VDict _ => raise TypeError
  end.

Record InsurancePlan : Type := {
  name : string;
  type : string;
  insurer : string;
  premium : Q;
  deductibles : value;
  out_of_pocket_limit : value;
  referral_needed : bool;
  cost_sharing : value;
  services_covered_before_deductible : list string
}.

Definition service_mapping : dict string :=
  [ ("primary_care", "primary_care");
    ("specialist", "specialist");
    ("urgent_care", "urgent_care");
    ("emergency_room", "emergency_room.care");
    ("lab_work", "diagnostic_test.lab");
    ("generic_drugs", "prescription_drugs.tier_1");
    ("specialty_drugs", "prescription_drugs.tier_4");
    ("ambulance", "emergency_room.transportation");
    ("hospital_stay", "hospital_stay.facility_fee") ]%string.

Definition base_service_costs : dict Z :=
  [ ("primary_care", 150);
    ("specialist", 250);
    ("urgent_care", 200);
    ("emergency_room", 1000);
    ("lab_work", 300);
    ("generic_drugs", 30);
    ("specialty_drugs", 600);
    ("ambulance", 1200);
    ("hospital_stay", 2500) ]%string%Z.

(** ** The allocator: [calculate_service_costs] *)

(** The assignment to [service_costs[service]] that an iteration of the
    first pass executes, named after its place in the source. *)
Inductive branch : Type :=
| FlatCopay           (* "copay" in in_network *)
| GenericDrug         (* retail_copay *)
| SpecialtyDrug       (* retail_coinsurance capped by retail_max *)
| CoveredBefore       (* service in services_covered *)
| DeductibleThenCopay (* inner copay test, deductible remaining *)
| DeductibleThenCoinsurance
| DeductibleOnly      (* base_cost <= deductible_portion *)
| MetCopay            (* inner copay test, deductible met *)
| MetCoinsurance.

(** Result of pricing one service: its cost, the deductible accumulator
    after it, and the branch that priced it. *)
Record priced : Type := {
  cost : Q;
  deductible_after : Q;
  taken : branch
}.

(** [in_network[k]] used as a number. *)
Definition getnum (in_network : value) (k : string) : result Q :=
  v <- getitem in_network k ;; as_num v.

(** Lines 106-111: the walk down [plan.cost_sharing] along the mapped path. *)
Fixpoint walk (cost_info : value) (service_path : list string) : result value :=
  match service_path with
  | [] => ret cost_info
  | path_part :: rest => next <- getitem cost_info path_part ;; walk next rest
  end.

Definition resolve (plan : InsurancePlan) (service : string) : result value :=
  mapped_service <- lookup service_mapping service ;;
  let service_path := split "."%char mapped_service in
  cost_info <- walk (cost_sharing plan) service_path ;;
  getitem cost_info "in_network".

(** Lines 131-151: a service that is subject to the deductible. *)
Definition deductible_subject (deductible : value) (accumulated_deductible : Q)
    (base_cost visits : Q) (in_network : value) : result priced :=
  d <- as_num deductible ;;
  let remaining_deductible := py_max 0 (d - accumulated_deductible) in
  if Qltb 0 remaining_deductible then
    let deductible_portion := py_min base_cost remaining_deductible in
    let accumulated_deductible := accumulated_deductible + deductible_portion in
    if Qltb deductible_portion base_cost then
      let remaining_cost := base_cost - deductible_portion in
      has_copay <- contains "copay" in_network ;;
      if has_copay : bool then
        copay <- getnum in_network "copay" ;;
        ret {| cost := deductible_portion + visits * copay;
               deductible_after := accumulated_deductible;
               taken := DeductibleThenCopay |}
      else
        c <- getnum in_network "coinsurance" ;;
        ret {| cost := deductible_portion + remaining_cost * (c / 100);
               deductible_after := accumulated_deductible;
               taken := DeductibleThenCoinsurance |}
    else
      ret {| cost := deductible_portion;
             deductible_after := accumulated_deductible;
             taken := DeductibleOnly |}
  else
    has_copay <- contains "copay" in_network ;;
    if has_copay : bool then
      copay <- getnum in_network "copay" ;;
      ret {| cost := visits * copay;
             deductible_after := accumulated_deductible;
             taken := MetCopay |}
    else
      c <- getnum in_network "coinsurance" ;;
      ret {| cost := base_cost * (c / 100);
             deductible_after := accumulated_deductible;
             taken := MetCoinsurance |}.

(** Lines 103-151: the body of the loop for a service with [visits != 0]. *)
Definition price_service (plan : InsurancePlan) (deductible : value)
    (accumulated_deductible : Q) (service : string) (visits : Z) : result priced :=
  unit_price <- lookup base_service_costs service ;;
  let base_cost := inject_Z (unit_price * visits) in
  let visits := inject_Z visits in
  in_network <- resolve plan service ;;
  has_copay <- contains "copay" in_network ;;
  if has_copay : bool then
    copay <- getnum in_network "copay" ;;
    ret {| cost := visits * copay;
           deductible_after := accumulated_deductible;
           taken := FlatCopay |}
  else if existsb (String.eqb service) ["generic_drugs"; "specialty_drugs"]%string then
    if String.eqb service "generic_drugs" then
      retail_copay <- getnum in_network "retail_copay" ;;
      ret {| cost := visits * retail_copay;
             deductible_after := accumulated_deductible;
             taken := GenericDrug |}
    else
      rc <- getnum in_network "retail_coinsurance" ;;
      let coinsurance := rc / 100 in
      retail_max <- getitem in_network "retail_max" ;;
      retail_max <- as_num retail_max ;;
      ret {| cost := py_min (base_cost * coinsurance) (visits * retail_max);
             deductible_after := accumulated_deductible;
             taken := SpecialtyDrug |}
  else if existsb (String.eqb service) (services_covered_before_deductible plan) then
    c <- getnum in_network "coinsurance" ;;
    ret {| cost := base_cost * (c / 100);
           deductible_after := accumulated_deductible;
           taken := CoveredBefore |}
  else
    deductible_subject deductible accumulated_deductible base_cost visits in_network.

(** The tracking variables of the first pass. *)
Record tracking : Type := {
  accumulated_deductible : Q;
  accumulated_total : Q;
  service_costs : dict Q
}.

Definition tracking0 : tracking :=
  {| accumulated_deductible := 0; accumulated_total := 0; service_costs := [] |}.

(** One iteration of [for service, visits in usage.items()]. *)
Definition iteration (plan : InsurancePlan) (deductible : value)
    (t : tracking) (service : string) (visits : Z) : result tracking :=
  if (visits =? 0)%Z then
    ret {| accumulated_deductible := accumulated_deductible t;
           accumulated_total := accumulated_total t;
           service_costs := dict_set (service_costs t) service 0 |}
  else
    p <- price_service plan deductible (accumulated_deductible t) service visits ;;
    ret {| accumulated_deductible := deductible_after p;
           accumulated_total := accumulated_total t + cost p;
           service_costs := dict_set (service_costs t) service (cost p) |}.

Fixpoint first_pass (plan : InsurancePlan) (deductible : value)
    (usage : dict Z) (t : tracking) : result tracking :=
  match usage with
  | [] => ret t
  | (service, visits) :: rest =>
      t' <- iteration plan deductible t service visits ;;
      first_pass plan deductible rest t'
  end.

(** Lines 155-166: the second pass. *)
Definition second_pass (out_of_pocket_max : value) (t : tracking) : result (dict Q) :=
  limit <- as_num out_of_pocket_max ;;
  if Qltb limit (accumulated_total t) then
    adjustment_ratio <- py_div limit (accumulated_total t) ;;
    let service_costs :=
      map (fun kv => (fst kv, snd kv * adjustment_ratio)) (service_costs t) in
    let total_medical := py_sum (values service_costs) in
    if Qltb (Qabs (total_medical - limit)) (1 # 100) then ret service_costs
    else raise AssertionError
  else ret (service_costs t).

Definition calculate_service_costs (plan : InsurancePlan) (usage : dict Z)
  : result (dict Q) :=
  out_of_pocket_max <- getitem (out_of_pocket_limit plan) "individual" ;;
  deductible <- getitem (deductibles plan) "overall" ;;
  t <- first_pass plan deductible usage tracking0 ;;
  second_pass out_of_pocket_max t.

(** ** The aggregator: [calculate_annual_cost] *)

Record annual_cost : Type := {
  annual_premium : Q;
  medical_costs : Q;
  total_cost : Q;
  per_service_costs : dict Q
}.

Definition calculate_annual_cost (plan : InsurancePlan) (usage : dict Z)
  : result annual_cost :=
  let annual_premium := premium plan * 12 in
  service_costs <- calculate_service_costs plan usage ;;
  let total_medical_costs := py_sum (values service_costs) in
  let total_cost := annual_premium + total_medical_costs in
  limit <- getnum (out_of_pocket_limit plan) "individual" ;;
  let max_possible_cost := annual_premium + limit in
  if Qle_bool total_cost (max_possible_cost + (1 # 100)) then
    ret {| annual_premium := annual_premium;
           medical_costs := total_medical_costs;
           total_cost := total_cost;
           per_service_costs := service_costs |}
  else raise AssertionError.

(** ** The curve generator: [generate_cost_curve_data] *)

(** Lines 191: [[i * (max_medical_cost / points) for i in range(points + 1)]]. *)
Fixpoint levels_of (max_medical_cost : Q) (points : Z) (indices : list Z)
  : result (list Q) :=
  match indices with
  | [] => ret []
  | i :: rest =>
      step <- py_div max_medical_cost (inject_Z points) ;;
      more <- levels_of max_medical_cost points rest ;;
      ret (inject_Z i * step :: more)
  end.

Definition cost_levels (max_medical_cost : Q) (points : Z) : result (list Q) :=
  levels_of max_medical_cost points (range (points + 1)).

(** Lines 196-228: the fractional usage for one raw cost, in the order of
    the dictionary literal. *)
Definition fractional_usage (raw_cost : Q) : dict Q :=
  let zero := 0 in
  if Qltb 0 raw_cost then
    if Qle_bool raw_cost 1000 then
      [ ("primary_care", (raw_cost * (6 # 10)) / 150);
        ("specialist", zero);
        ("urgent_care", zero);
        ("emergency_room", zero);
        ("lab_work", zero);
        ("generic_drugs", (raw_cost * (4 # 10)) / 30);
        ("specialty_drugs", zero);
        ("ambulance", zero);
        ("hospital_stay", zero) ]%string
    else if Qle_bool raw_cost 5000 then
      [ ("primary_care", (raw_cost * (3 # 10)) / 150);
        ("specialist", (raw_cost * (3 # 10)) / 250);
        ("urgent_care", (raw_cost * (2 # 10)) / 200);
        ("emergency_room", zero);
        ("lab_work", (raw_cost * (1 # 10)) / 300);
        ("generic_drugs", (raw_cost * (1 # 10)) / 30);
        ("specialty_drugs", zero);
        ("ambulance", zero);
        ("hospital_stay", zero) ]%string
    else
      [ ("primary_care", zero);
        ("specialist", (raw_cost * (15 # 100)) / 250);
        ("urgent_care", zero);
        ("emergency_room", (raw_cost * (2 # 10)) / 1000);
        ("lab_work", (raw_cost * (15 # 100)) / 300);
        ("generic_drugs", zero);
        ("specialty_drugs", (raw_cost * (1 # 10)) / 600);
        ("ambulance", zero);
        ("hospital_stay", (raw_cost * (4 # 10)) / 2500) ]%string
  else
    [ ("primary_care", zero);
      ("specialist", zero);
      ("urgent_care", zero);
      ("emergency_room", zero);
      ("lab_work", zero);
      ("generic_drugs", zero);
      ("specialty_drugs", zero);
      ("ambulance", zero);
      ("hospital_stay", zero) ]%string.

(** Line 231: [{k: round(max(0, v)) for k, v in usage.items()}]. *)
Definition synthesize (raw_cost : Q) : dict Z :=
  map (fun kv => (fst kv, py_round (py_max 0 (snd kv)))) (fractional_usage raw_cost).

Fixpoint curve_totals (plan : InsurancePlan) (medical_costs : list Q)
  : result (list Q) :=
  match medical_costs with
  | [] => ret []
  | raw_cost :: rest =>
      annual_costs <- calculate_annual_cost plan (synthesize raw_cost) ;;
      more <- curve_totals plan rest ;;
      ret (total_cost annual_costs :: more)
  end.

Definition generate_cost_curve_data (plan : InsurancePlan)
    (max_medical_cost : Q) (points : Z) : result (list Q * list Q) :=
  medical_costs <- cost_levels max_medical_cost points ;;
  total_costs <- curve_totals plan medical_costs ;;
  ret (medical_costs, total_costs).

(** ** Auxiliary notions used in the statements *)

(** The running total agrees with the sum of the costs stored so far. *)
Definition balanced (t : tracking) : Prop :=
  py_sum (values (service_costs t)) == accumulated_total t.

(** The effect of lines 159-160 on the whole dictionary. *)
Definition scale (ratio : Q) (costs : dict Q) : dict Q :=
  map (fun kv => (fst kv, snd kv * ratio)) costs.

(** A cost-sharing entry [{"in_network": {field: amount}}]. *)
Definition rule (field : string) (amount : Q) : value :=
  VDict [("in_network"%string, VDict [(field, VNum amount)])].

(** The plan of the worked scenario: $400 a month, $1000 deductible,
    $5000 out-of-pocket limit, $30 primary care copay, 20% specialist
    coinsurance. *)
Definition scenario_plan : InsurancePlan :=
  {| name := "Scenario";
     type := "PPO";
     insurer := "Example";
     premium := 400;
     deductibles := VDict [("overall"%string, VNum 1000)];
     out_of_pocket_limit := VDict [("individual"%string, VNum 5000)];
     referral_needed := false;
     cost_sharing :=
       VDict [("primary_care"%string, rule "copay" 30);
              ("specialist"%string, rule "coinsurance" 20)];
     services_covered_before_deductible := [] |}.

Definition scenario_usage : dict Z :=
  [("primary_care"%string, 2%Z); ("specialist"%string, 3%Z)].

(** The same plan with a $500 out-of-pocket limit, which the scenario exceeds. *)
Definition tight_plan : InsurancePlan :=
  {| name := "Tight";
     type := "PPO";
     insurer := "Example";
     premium := 400;
     deductibles := VDict [("overall"%string, VNum 1000)];
     out_of_pocket_limit := VDict [("individual"%string, VNum 500)];
     referral_needed := false;
     cost_sharing :=
       VDict [("primary_care"%string, rule "copay" 30);
              ("specialist"%string, rule "coinsurance" 20)];
     services_covered_before_deductible := [] |}.

(** A tracking state in which $700 of the deductible is already used. *)
Definition partly_used : tracking :=
  {| accumulated_deductible := 700;
     accumulated_total := 700;
     service_costs := [("urgent_care"%string, 700)] |}.

(** A plan with a $500 deductible and two plain coinsurance services with
    different rates, primary care at 10% and urgent care at 50%, a $40
    specialist copay and a $10 retail copay for generic drugs. *)
Definition split_plan : InsurancePlan :=
  {| name := "Split";
     type := "PPO";
     insurer := "Example";
     premium := 100;
     deductibles := VDict [("overall"%string, VNum 500)];
     out_of_pocket_limit := VDict [("individual"%string, VNum 10000)];
     referral_needed := false;
     cost_sharing :=
       VDict [("primary_care"%string, rule "coinsurance" 10);
              ("urgent_care"%string, rule "coinsurance" 50);
              ("specialist"%string, rule "copay" 40);
              ("prescription_drugs"%string,
               VDict [("tier_1"%string, rule "retail_copay" 10)])];
     services_covered_before_deductible := [] |}.

(** The exceptions that a lookup in the plan or in the tables can raise:
    the configuration errors of the engine. *)
Definition configuration_error (e : error) : Prop :=
  match e with
  | KeyError _ | TypeError => True
  | ZeroDivisionError | AssertionError => False
  end.

(** The cost-sharing rule of a service cannot be resolved in the plan, or
    resolves to a drug rule without the field its tier requires. *)
Inductive unresolvable (plan : InsurancePlan) (service : string) : Prop :=
| no_rule e :
    resolve plan service = inl e -> unresolvable plan service
| no_retail_copay in_network e :
    resolve plan service = inr in_network ->
    contains "copay" in_network = inr false ->
    service = "generic_drugs"%string ->
    getitem in_network "retail_copay" = inl e ->
    unresolvable plan service
| no_retail_coinsurance in_network e :
    resolve plan service = inr in_network ->
    contains "copay" in_network = inr false ->
    service = "specialty_drugs"%string ->
    getitem in_network "retail_coinsurance" = inl e ->
    unresolvable plan service
| no_retail_max in_network e :
    resolve plan service = inr in_network ->
    contains "copay" in_network = inr false ->
    service = "specialty_drugs"%string ->
    getitem in_network "retail_max" = inl e ->
    unresolvable plan service.

(** Two tracking states that agree on the deductible accumulator and on
    the cost of every service other than [service]. *)
Definition agree_except (service : string) (t u : tracking) : Prop :=
  accumulated_deductible t = accumulated_deductible u /\
  forall other, other <> service ->
    dict_get (service_costs t) other = dict_get (service_costs u) other.

(** ** The usage synthesis as the specification words it

    Three tiers by raw cost; each tier splits the raw cost into fixed
    percentage shares, a share is divided by the base price of its category
    and rounded to the nearest non-negative integer; the categories that a
    tier does not name get zero units, and so does every category at the
    zero level. *)

Inductive tier : Type := Low | Medium | High.

Definition tier_of (raw_cost : Q) : tier :=
  if Qle_bool raw_cost 1000 then Low
  else if Qle_bool raw_cost 5000 then Medium
  else High.

Definition tier_shares (t : tier) : dict Q :=
  match t with
  | Low => [("primary_care", 60); ("generic_drugs", 40)]
  | Medium => [("primary_care", 30); ("specialist", 30); ("urgent_care", 20);
               ("generic_drugs", 10); ("lab_work", 10)]
  | High => [("hospital_stay", 40); ("emergency_room", 20); ("specialist", 15);
             ("lab_work", 15); ("specialty_drugs", 10)]
  end%string.

Definition share_percent (t : tier) (category : string) : Q :=
  match dict_get (tier_shares t) category with
  | Some percent => percent
  | None => 0
  end.

Definition nearest_count (x : Q) : Z := py_round (py_max 0 x).

Definition spec_units (raw_cost : Q) (category : string) (base_price : Z) : Z :=
  if Qeq_bool raw_cost 0 then 0%Z
  else nearest_count
         (raw_cost * (share_percent (tier_of raw_cost) category / 100)
          / inject_Z base_price).

Definition spec_usage (raw_cost : Q) : dict Z :=
  map (fun cp => (fst cp, spec_units raw_cost (fst cp) (snd cp))) base_service_costs.

(** A copay-based plan with a rule for every service: no deductible, a
    $6000 out-of-pocket limit, flat copays for visits, tests, emergency and
    hospital services, a $10 retail copay for generic drugs and 20%
    coinsurance capped at $150 for specialty drugs. *)
Definition copay_plan : InsurancePlan :=
  {| name := "Copay";
     type := "HMO";
     insurer := "Example";
     premium := 300;
     deductibles := VDict [("overall"%string, VNum 0)];
     out_of_pocket_limit := VDict [("individual"%string, VNum 6000)];
     referral_needed := true;
     cost_sharing :=
       VDict [("primary_care"%string, rule "copay" 30);
              ("specialist"%string, rule "copay" 50);
              ("urgent_care"%string, rule "copay" 50);
              ("emergency_room"%string,
               VDict [("care"%string, rule "copay" 250);
                      ("transportation"%string, rule "copay" 100)]);
              ("diagnostic_test"%string,
               VDict [("lab"%string, rule "copay" 20)]);
              ("prescription_drugs"%string,
               VDict [("tier_1"%string, rule "retail_copay" 10);
                      ("tier_4"%string,
                       VDict [("in_network"%string,
                               VDict [("retail_coinsurance"%string, VNum 20);
                                      ("retail_max"%string, VNum 150)])])]);
              ("hospital_stay"%string,
               VDict [("facility_fee"%string, rule "copay" 250)])];
     services_covered_before_deductible := [] |}.

(** The entries of a curve: each total is the aggregator's total cost for
    the usage synthesized at its raw cost level. *)
Definition curve_point (plan : InsurancePlan) (raw_cost total : Q) : Prop :=
  exists summary,
    calculate_annual_cost plan (synthesize raw_cost) = inr summary /\
    total = total_cost summary.

(** ** Notions for the monotonicity of the curve *)

(** Every amount that a resolved rule of the plan carries is non-negative
    (the plan form only accepts such amounts). *)
Definition sane (plan : InsurancePlan) : Prop :=
  forall service in_network field amount,
    resolve plan service = inr in_network ->
    getnum in_network field = inr amount ->
    0 <= amount.



(** A decision procedure for [sane]: every numeric field of every rule that
    the service mapping reaches is non-negative. *)
Definition nonneg_fields (in_network : value) : bool :=
  match in_network with
  | VDict fields =>
      forallb (fun kv => match as_num (snd kv) with
                         | inr amount => Qle_bool 0 amount
                         | inl _ => true
                         end) fields
  | _ => true
  end.

Definition saneb (plan : InsurancePlan) : bool :=
  forallb (fun sm => match resolve plan (fst sm) with
                     | inr in_network => nonneg_fields in_network
                     | inl _ => true
                     end) service_mapping.

(** ** Notions for the further properties of the allocator *)

(** A usage with no units at all. *)
Definition no_usage (usage : dict Z) : Prop :=
  Forall (fun e => snd e = 0%Z) usage.

(** The costs of a usage with no units. *)
Definition zero_costs (usage : dict Z) : dict Q :=
  map (fun e => (fst e, 0)) usage.


(** The scenario plan with a negative out-of-pocket limit. *)
Definition negative_limit_plan : InsurancePlan :=
  {| name := "Negative";
     type := "PPO";
     insurer := "Example";
     premium := 400;
     deductibles := VDict [("overall"%string, VNum 1000)];
     out_of_pocket_limit := VDict [("individual"%string, VNum (-1))];
     referral_needed := false;
     cost_sharing :=
       VDict [("primary_care"%string, rule "copay" 30);
              ("specialist"%string, rule "coinsurance" 20)];
     services_covered_before_deductible := [] |}.

(** The scenario plan with specialist visits covered before the deductible. *)
Definition exempt_plan : InsurancePlan :=
  {| name := "Exempt";
     type := "PPO";
     insurer := "Example";
     premium := 400;
     deductibles := VDict [("overall"%string, VNum 1000)];
     out_of_pocket_limit := VDict [("individual"%string, VNum 5000)];
     referral_needed := false;
     cost_sharing :=
       VDict [("primary_care"%string, rule "copay" 30);
              ("specialist"%string, rule "coinsurance" 20)];
     services_covered_before_deductible := ["specialist"%string] |}.

(** ** Notions for the further properties of the curve *)

(** The cost of a usage at the base prices (line 103, summed over the
    services); a service without a base price counts for nothing. *)
Fixpoint base_cost_of (usage : dict Q) : Q :=
  match usage with
  | [] => 0
  | (service, units) :: rest =>
      match dict_get base_service_costs service with
      | Some unit_price => inject_Z unit_price * units
      | None => 0
      end + base_cost_of rest
  end.

(** Half the sum of the base prices of the services that a tier names. *)
Definition tier_slack (t : tier) : Q :=
  match t with
  | Low => 90
  | Medium => 465
  | High => 2325
  end.

(** The synthesized unit counts, as numbers. *)
Definition synthesized_units (raw_cost : Q) : dict Q :=
  map (fun kv => (fst kv, inject_Z (snd kv))) (synthesize raw_cost).

(** ** The page: [main]

    The parts of [main] that compute: the usage built from the sidebar, the
    emergency scenario, the rows of the comparison table and the order in
    which the plans are shown.  The widgets are the inputs of these
    definitions. *)




(** [d.get(k, default)] *)
Definition get_or {V} (d : dict V) (k : string) (default : V) : V :=
  match dict_get d k with
  | Some v => v
  | None => default
  end.

(** A cell of the results table: a text or an amount. *)
Inductive cell : Type :=
| Text (s : string)
| Amount (q : Q).

(** Lines 321-337: the row of a plan. *)
Definition result_row (plan : InsurancePlan) (costs : annual_cost) : dict cell :=
  [ ("Insurer", Text (insurer plan));
    ("Plan", Text (name plan));
    ("Monthly Premium", Amount (premium plan));
    ("Annual Premium", Amount (annual_premium costs));
    ("Primary Care", Amount (get_or (per_service_costs costs) "primary_care" 0));
    ("Specialist", Amount (get_or (per_service_costs costs) "specialist" 0));
    ("Urgent Care", Amount (get_or (per_service_costs costs) "urgent_care" 0));
    ("Emergency Room", Amount (get_or (per_service_costs costs) "emergency_room" 0));
    ("Ambulance", Amount (get_or (per_service_costs costs) "ambulance" 0));
    ("Hospital Stay", Amount (get_or (per_service_costs costs) "hospital_stay" 0));
    ("Lab Work", Amount (get_or (per_service_costs costs) "lab_work" 0));
    ("Generic Drugs", Amount (get_or (per_service_costs costs) "generic_drugs" 0));
    ("Specialty Drugs", Amount (get_or (per_service_costs costs) "specialty_drugs" 0));
    ("Medical Costs", Amount (medical_costs costs));
    ("Total Cost", Amount (total_cost costs)) ]%string.

(** The amount in a column of a row (0 for a text or a missing column). *)
Definition amount_of (row : dict cell) (column : string) : Q :=
  match dict_get row column with
  | Some (Amount q) => q
  | _ => 0
  end.

(** The columns of a row that show the cost of a service. *)
Definition service_columns : list string :=
  [ "Primary Care"; "Specialist"; "Urgent Care"; "Emergency Room"; "Ambulance";
    "Hospital Stay"; "Lab Work"; "Generic Drugs"; "Specialty Drugs" ]%string.

(** The services that the row reads, in the order of its columns. *)
Definition row_services : list string :=
  [ "primary_care"; "specialist"; "urgent_care"; "emergency_room"; "ambulance";
    "hospital_stay"; "lab_work"; "generic_drugs"; "specialty_drugs" ]%string.

(** Lines 486-491: the options of the form's multiselect of services covered
    before the deductible. *)
Definition form_service_options : list string :=
  [ "Primary Care"; "Specialist Visit"; "Preventive Care";
    "Diagnostic Tests"; "Prescription Drugs"; "Maternity Care" ]%string.

(** The exempt plan with the form's default selection instead. *)
Definition form_default_plan : InsurancePlan :=
  {| name := "Form";
     type := "PPO";
     insurer := "Example";
     premium := 400;
     deductibles := VDict [("overall"%string, VNum 1000)];
     out_of_pocket_limit := VDict [("individual"%string, VNum 5000)];
     referral_needed := false;
     cost_sharing :=
       VDict [("primary_care"%string, rule "copay" 30);
              ("specialist"%string, rule "coinsurance" 20)];
     services_covered_before_deductible := ["Preventive Care"%string] |}.

(** ** Colours of the insurers: [get_insurer_colors] *)

(** [sorted(strings)]: strings are ordered by their code points, which for
    the bytes of a string is the lexicographic order [String.leb]; a stable
    insertion sort computes the one sorted arrangement. *)
Fixpoint insert_sorted (x : string) (l : list string) : list string :=
  match l with
  | [] => [x]
  | y :: rest => if String.leb x y then x :: y :: rest else y :: insert_sorted x rest
  end.

Definition sorted (l : list string) : list string := fold_right insert_sorted [] l.

(** The dictionary comprehension of line 12, from index [i] on: the
    insurer at index [i] gets [colors[i % len(colors)]].  With a palette
    that is not empty the index is in range. *)
Fixpoint assign_colors (colors : list string) (i : nat) (names : list string)
    (assigned : dict string) : result (dict string) :=
  match names with
  | [] => ret assigned
  | insurer :: rest =>
      match List.length colors with
      | O => raise ZeroDivisionError
      | n =>
          assign_colors colors (S i) rest
            (dict_set assigned insurer (nth (i mod n) colors EmptyString))
      end
  end.

(** [colors] stands for Plotly's palette [px.colors.qualitative.Set2]. *)
Definition get_insurer_colors (colors : list string) (insurers : list string)
  : result (dict string) :=
  assign_colors colors 0 (sorted insurers) [].

(** The order of [sorted]. *)
Definition string_le (a b : string) : Prop := String.leb a b = true.

(** The colour of each name, cycling through the palette from index [i]. *)
Fixpoint palette_cycle (colors : list string) (i : nat) (names : list string)
  : dict string :=
  match names with
  | [] => []
  | insurer :: rest =>
      (insurer, nth (i mod List.length colors) colors EmptyString)
        :: palette_cycle colors (S i) rest
  end.

(** ** The order of the plans on the page (lines 304-317, 409-421) *)

(** Lines 304-308: the plans of the session, grouped by insurer. *)
Fixpoint group_by_insurer (plans : list InsurancePlan)
    (insurers : dict (list InsurancePlan)) : dict (list InsurancePlan) :=
  match plans with
  | [] => insurers
  | plan :: rest =>
      let insurers :=
        match dict_get insurers (insurer plan) with
        | None => dict_set insurers (insurer plan) []
        | Some _ => insurers
        end in
      let insurers :=
        dict_set insurers (insurer plan)
          (get_or insurers (insurer plan) [] ++ [plan]) in
      group_by_insurer rest insurers
  end.

(** [plans.sort(key=lambda x: x.premium)]: the stable sort by premium. *)
Fixpoint insert_by_premium (plan : InsurancePlan) (l : list InsurancePlan)
  : list InsurancePlan :=
  match l with
  | [] => [plan]
  | other :: rest =>
      if Qle_bool (premium plan) (premium other) then plan :: other :: rest
      else other :: insert_by_premium plan rest
  end.

Definition sort_by_premium (l : list InsurancePlan) : list InsurancePlan :=
  fold_right insert_by_premium [] l.

(** Lines 311-312: every group sorted by premium. *)
Definition sort_groups (insurers : dict (list InsurancePlan))
  : dict (list InsurancePlan) :=
  map (fun kv => (fst kv, sort_by_premium (snd kv))) insurers.

(** Lines 316-317: the insurers in sorted order, the plans of each in turn. *)
Definition in_display_order (insurers : dict (list InsurancePlan))
  : list InsurancePlan :=
  flat_map (fun k => get_or insurers k []) (sorted (keys insurers)).

Definition display_order (plans : dict InsurancePlan) : list InsurancePlan :=
  in_display_order (sort_groups (group_by_insurer (values plans) [])).

(** Lines 315-337: one row for each plan, in the display order. *)
Fixpoint comparison_rows (usage : dict Z) (plans : list InsurancePlan)
  : result (list (dict cell)) :=
  match plans with
  | [] => ret []
  | plan :: rest =>
      costs <- calculate_annual_cost plan usage ;;
      rows <- comparison_rows usage rest ;;
      ret (result_row plan costs :: rows)
  end.

Definition comparison_results (plans : dict InsurancePlan) (usage : dict Z)
  : result (list (dict cell)) :=
  comparison_rows usage (display_order plans).

(** The first plan is shown no later than the second: its insurer comes
    first, or they have the same insurer and its premium is not higher. *)
Definition shown_before (p q : InsurancePlan) : Prop :=
  (insurer p <> insurer q /\ string_le (insurer p) (insurer q)) \/
  (insurer p = insurer q /\ premium p <= premium q).

(** The groups of a dictionary: distinct insurers, each with its own plans. *)
Definition grouped (insurers : dict (list InsurancePlan)) : Prop :=
  NoDup (keys insurers) /\
  forall k l, In (k, l) insurers -> Forall (fun p => insurer p = k) l.

(** Two plans of the session, of two insurers. *)
Definition session_plans : dict InsurancePlan :=
  [ ("Split"%string, split_plan); ("Copay"%string, copay_plan);
    ("Scenario"%string, scenario_plan) ].

(** ** Plans as stored: [to_dict] and the loader (lines 26-37, 46-58)

    Neither [to_dict] nor the loader looks inside a field: they are stated
    for any type [V] of field values.  [empty_list] stands for the [[]] that
    the loader uses when the list of covered services is absent. *)

(** An [InsurancePlan] object as Python holds it, before any annotation of
    the dataclass is relied upon. *)
Record plan_object (V : Type) : Type := {
  obj_name : V;
  obj_type : V;
  obj_insurer : V;
  obj_premium : V;
  obj_deductibles : V;
  obj_out_of_pocket_limit : V;
  obj_referral_needed : V;
  obj_cost_sharing : V;
  obj_services_covered_before_deductible : V
}.

Arguments obj_name {V}.
Arguments obj_type {V}.
Arguments obj_insurer {V}.
Arguments obj_premium {V}.
Arguments obj_deductibles {V}.
Arguments obj_out_of_pocket_limit {V}.
Arguments obj_referral_needed {V}.
Arguments obj_cost_sharing {V}.
Arguments obj_services_covered_before_deductible {V}.

Definition to_dict {V} (self : plan_object V) : dict V :=
  [ ("name", obj_name self);
    ("type", obj_type self);
    ("insurer", obj_insurer self);
    ("premium", obj_premium self);
    ("deductibles", obj_deductibles self);
    ("out_of_pocket_limit", obj_out_of_pocket_limit self);
    ("referral_needed", obj_referral_needed self);
    ("cost_sharing", obj_cost_sharing self);
    ("services_covered_before_deductible",
     obj_services_covered_before_deductible self) ]%string.

(** Lines 47-57: the plan built from one entry of [plans.json]. *)
Definition load_plan {V} (empty_list : V) (plan_data : dict V)
  : result (plan_object V) :=
  name <- lookup plan_data "plan_name" ;;
  type <- lookup plan_data "plan_type" ;;
  insurer <- lookup plan_data "insurer" ;;
  premium <- lookup plan_data "premium" ;;
  deductibles <- lookup plan_data "deductibles" ;;
  out_of_pocket_limit <- lookup plan_data "out_of_pocket_limit" ;;
  referral_needed <- lookup plan_data "referral_needed" ;;
  cost_sharing <- lookup plan_data "cost_sharing" ;;
  ret {| obj_name := name;
         obj_type := type;
         obj_insurer := insurer;
         obj_premium := premium;
         obj_deductibles := deductibles;
         obj_out_of_pocket_limit := out_of_pocket_limit;
         obj_referral_needed := referral_needed;
         obj_cost_sharing := cost_sharing;
         obj_services_covered_before_deductible :=
           get_or plan_data "services_covered_before_deductible" empty_list |}.

(** The keys that the loader requires, in the order in which it reads them. *)
Definition required_keys : list string :=
  [ "plan_name"; "plan_type"; "insurer"; "premium"; "deductibles";
    "out_of_pocket_limit"; "referral_needed"; "cost_sharing" ]%string.

(** ** Plans that can price a service *)



(** * Properties *)

(** ** Comparisons, [min] and [max] *)

Lemma Qltb_true (x y : Q) : Qltb x y = true <-> x < y.
Proof.
  unfold Qltb. rewrite negb_true_iff. split; intro H.
  - apply Qnot_le_lt. intro L. apply Qle_bool_iff in L. congruence.
  - destruct (Qle_bool y x) eqn:E; [|reflexivity].
    apply Qle_bool_iff in E. exfalso. apply (Qlt_not_le _ _ H E).
Qed.

Lemma Qltb_false (x y : Q) : Qltb x y = false <-> y <= x.
Proof.
  unfold Qltb. rewrite negb_false_iff. apply Qle_bool_iff.
Qed.

Lemma Qltb_cases (x y : Q) :
  (Qltb x y = true /\ x < y) \/ (Qltb x y = false /\ y <= x).
Proof.
  destruct (Qltb x y) eqn:E.
  - left. split; [reflexivity | now apply Qltb_true].
  - right. split; [reflexivity | now apply Qltb_false].
Qed.

Lemma py_min_cases (a b : Q) :
  (b < a /\ py_min a b = b) \/ (a <= b /\ py_min a b = a).
Proof.
  unfold py_min. destruct (Qltb_cases b a) as [[E H]|[E H]]; rewrite E; auto.
Qed.

Lemma py_max_cases (a b : Q) :
  (a < b /\ py_max a b = b) \/ (b <= a /\ py_max a b = a).
Proof.
  unfold py_max. destruct (Qltb_cases a b) as [[E H]|[E H]]; rewrite E; auto.
Qed.

(** ** Exceptions propagate *)

Lemma bind_inr {A B} (c : result A) (k : A -> result B) (b : B) :
  bind c k = inr b -> exists a, c = inr a /\ k a = inr b.
Proof. destruct c as [e|a]; simpl; [discriminate | eauto]. Qed.

Lemma bind_inl {A B} (c : result A) (k : A -> result B) (e : error) :
  bind c k = inl e -> c = inl e \/ exists a, c = inr a /\ k a = inl e.
Proof. destruct c as [e'|a]; simpl; [left; congruence | eauto]. Qed.

(** Splits a successful monadic computation in the hypothesis [H] into its
    successful steps. *)
Ltac ok_steps H :=
  repeat match type of H with
  | bind _ _ = inr _ =>
      let a := fresh "a" in let Ha := fresh "Ha" in
      apply bind_inr in H; destruct H as (a & Ha & H)
  | ret _ = inr _ => unfold ret in H
  | raise _ = inr _ => discriminate H
  | inl _ = inr _ => discriminate H
  end.

(** ** Dictionaries *)

Lemma dict_get_set_same {V} (d : dict V) k v : dict_get (dict_set d k v) k = Some v.
Proof.
  induction d as [|[k' v'] d IH]; simpl.
  - now rewrite String.eqb_refl.
  - destruct (String.eqb k k') eqn:E; simpl; rewrite E; auto.
Qed.

Lemma dict_get_set_other {V} (d : dict V) k k' v :
  k' <> k -> dict_get (dict_set d k v) k' = dict_get d k'.
Proof.
  intro N. induction d as [|[k0 v0] d IH]; simpl.
  - destruct (String.eqb k' k) eqn:E; [apply String.eqb_eq in E; contradiction | reflexivity].
  - destruct (String.eqb k k0) eqn:E; simpl.
    + apply String.eqb_eq in E. subst k0.
      destruct (String.eqb k' k) eqn:E'; [apply String.eqb_eq in E'; contradiction | reflexivity].
    + now rewrite IH.
Qed.

Lemma dict_set_fresh {V} (d : dict V) k v :
  ~ In k (keys d) -> dict_set d k v = d ++ [(k, v)].
Proof.
  induction d as [|[k' v'] d IH]; simpl; intro N; [reflexivity|].
  destruct (String.eqb k k') eqn:E.
  - apply String.eqb_eq in E. subst. tauto.
  - rewrite IH; tauto.
Qed.

Lemma dict_get_map {V W} (f : V -> W) (d : dict V) k :
  dict_get (map (fun kv => (fst kv, f (snd kv))) d) k = option_map f (dict_get d k).
Proof.
  induction d as [|[k' v'] d IH]; simpl; [reflexivity|].
  destruct (String.eqb k k'); auto.
Qed.

(** ** Sums *)

Lemma fold_Qplus_compat (xs : list Q) (u v : Q) :
  u == v -> fold_left Qplus xs u == fold_left Qplus xs v.
Proof.
  revert u v. induction xs as [|x xs IH]; intros u v E; simpl; [exact E|].
  apply IH. now rewrite E.
Qed.

Lemma fold_Qplus_shift (xs : list Q) (a b : Q) :
  fold_left Qplus xs (a + b) == a + fold_left Qplus xs b.
Proof.
  revert a b. induction xs as [|x xs IH]; intros a b; simpl; [reflexivity|].
  rewrite <- IH. apply fold_Qplus_compat. ring.
Qed.

Lemma py_sum_cons (x : Q) (xs : list Q) : py_sum (x :: xs) == x + py_sum xs.
Proof.
  unfold py_sum. simpl. rewrite <- fold_Qplus_shift.
  apply fold_Qplus_compat. ring.
Qed.

Lemma py_sum_app (xs ys : list Q) : py_sum (xs ++ ys) == py_sum xs + py_sum ys.
Proof.
  induction xs as [|x xs IH]; simpl.
  - unfold py_sum at 2. simpl. ring.
  - rewrite !py_sum_cons, IH. ring.
Qed.

Lemma py_sum_scale (xs : list Q) (r : Q) :
  py_sum (map (fun x => x * r) xs) == py_sum xs * r.
Proof.
  induction xs as [|x xs IH]; simpl.
  - unfold py_sum. simpl. ring.
  - rewrite !py_sum_cons, IH. ring.
Qed.

(** ** The first pass keeps [accumulated_total] equal to the sum of the costs *)

Lemma balanced0 : balanced tracking0.
Proof. unfold balanced, tracking0, py_sum. simpl. reflexivity. Qed.

Lemma iteration_balanced plan deductible t service visits t' :
  iteration plan deductible t service visits = inr t' ->
  ~ In service (keys (service_costs t)) ->
  balanced t ->
  balanced t' /\ keys (service_costs t') = keys (service_costs t) ++ [service].
Proof.
  unfold iteration, balanced. intros H Fresh B.
  destruct (visits =? 0)%Z.
  - injection H as <-. simpl. rewrite dict_set_fresh by exact Fresh.
    unfold values, keys. rewrite !map_app. simpl. split; [|reflexivity].
    rewrite py_sum_app. unfold values in B. rewrite B.
    unfold py_sum. simpl. ring.
  - ok_steps H. injection H as <-. simpl. rewrite dict_set_fresh by exact Fresh.
    unfold values, keys. rewrite !map_app. simpl. split; [|reflexivity].
    rewrite py_sum_app. unfold values in B. rewrite B.
    unfold py_sum. simpl. ring.
Qed.

Lemma first_pass_balanced plan deductible usage : forall t t',
  first_pass plan deductible usage t = inr t' ->
  NoDup (keys usage) ->
  (forall k, In k (keys usage) -> ~ In k (keys (service_costs t))) ->
  balanced t ->
  balanced t' /\ keys (service_costs t') = keys (service_costs t) ++ keys usage.
Proof.
  induction usage as [|[service visits] rest IH]; simpl; intros t t' H ND Fresh B.
  - injection H as <-. now rewrite app_nil_r.
  - ok_steps H. inversion ND as [|? ? Hnotin ND']; subst.
    destruct (iteration_balanced _ _ _ _ _ _ Ha) as [B' K']; auto.
    destruct (IH _ _ H ND') as [B'' K'']; auto.
    + intros k Hk. rewrite K'. rewrite in_app_iff. simpl.
      intros [Hin|[<-|[]]]; [|contradiction].
      apply (Fresh k); auto.
    + split; [exact B''|]. rewrite K'', K', <- app_assoc. reflexivity.
Qed.

(** ** The second pass *)

Lemma second_pass_under limit_value limit t :
  as_num limit_value = inr limit ->
  accumulated_total t <= limit ->
  second_pass limit_value t = inr (service_costs t).
Proof.
  intros L H. unfold second_pass. rewrite L. simpl.
  apply Qltb_false in H. now rewrite H.
Qed.

Lemma values_scale ratio costs :
  values (scale ratio costs) = map (fun x => x * ratio) (values costs).
Proof. unfold values, scale. rewrite !map_map. reflexivity. Qed.

Lemma second_pass_over limit_value limit t :
  as_num limit_value = inr limit ->
  0 <= limit ->
  limit < accumulated_total t ->
  balanced t ->
  second_pass limit_value t
    = inr (scale (limit / accumulated_total t) (service_costs t))
  /\ py_sum (values (scale (limit / accumulated_total t) (service_costs t))) == limit.
Proof.
  intros L Pos Over B.
  assert (NZ : ~ accumulated_total t == 0) by (intro E; rewrite E in Over; lra).
  assert (S : py_sum (values (scale (limit / accumulated_total t) (service_costs t)))
              == limit).
  { rewrite values_scale, py_sum_scale. unfold balanced in B. rewrite B.
    field. exact NZ. }
  split; [|exact S].
  assert (T : Qltb (Qabs (py_sum (values (scale (limit / accumulated_total t)
                 (service_costs t))) - limit)) (1 # 100) = true).
  { apply Qltb_true. rewrite S.
    setoid_replace (limit - limit) with 0 by ring. reflexivity. }
  unfold second_pass. rewrite L. unfold bind at 1.
  apply Qltb_true in Over. rewrite Over.
  unfold py_div. destruct (Qeq_bool (accumulated_total t) 0) eqn:E.
  { apply Qeq_bool_iff in E. contradiction. }
  unfold bind, ret. fold (scale (limit / accumulated_total t) (service_costs t)).
  now rewrite T.
Qed.

(** ** Out-of-pocket cap (C1) *)

Lemma calculate_service_costs_total plan usage limit deductible t :
  NoDup (keys usage) ->
  getitem (out_of_pocket_limit plan) "individual" = inr (VNum limit) ->
  0 <= limit ->
  getitem (deductibles plan) "overall" = inr deductible ->
  first_pass plan deductible usage tracking0 = inr t ->
  exists costs,
    calculate_service_costs plan usage = inr costs /\
    py_sum (values costs) <= limit /\
    (accumulated_total t <= limit -> costs = service_costs t) /\
    (limit < accumulated_total t ->
       costs = scale (limit / accumulated_total t) (service_costs t) /\
       py_sum (values costs) == limit).
Proof.
  intros ND L Pos D F.
  pose proof (first_pass_balanced _ _ _ _ _ F ND
                (fun k _ (H : In k []) => H) balanced0) as [B _].
  unfold calculate_service_costs. rewrite L, D. unfold bind at 1 2.
  rewrite F. unfold bind at 1.
  destruct (Qlt_le_dec limit (accumulated_total t)) as [Over|Under].
  - destruct (second_pass_over (VNum limit) limit t eq_refl Pos Over B) as [E S].
    exists (scale (limit / accumulated_total t) (service_costs t)).
    rewrite E. split; [reflexivity|]. split; [|split].
    + rewrite S. apply Qle_refl.
    + intro U. exfalso. apply (Qlt_not_le _ _ Over U).
    + intros _. split; [reflexivity | exact S].
  - exists (service_costs t).
    rewrite (second_pass_under (VNum limit) limit t eq_refl Under).
    split; [reflexivity|]. split; [|split].
    + unfold balanced in B. rewrite B. exact Under.
    + reflexivity.
    + intro O. exfalso. apply (Qlt_not_le _ _ O Under).
Qed.



(** ** The worked scenario (C3) *)

(** C3. For the plan with a $400 monthly premium, $1000 deductible, $5000
    out-of-pocket limit, $30 primary care copay and 20% specialist
    coinsurance subject to the deductible, and the usage of 2 primary care
    and 3 specialist visits, the allocator returns $60 and $750 and the
    aggregator returns an annual premium of $4800, medical costs of $810 and
    a total cost of $5610. *)
Theorem worked_scenario :
  calculate_service_costs scenario_plan scenario_usage
    = inr [("primary_care"%string, 60); ("specialist"%string, 750)] /\
  calculate_annual_cost scenario_plan scenario_usage
    = inr {| annual_premium := 4800;
             medical_costs := 810;
             total_cost := 5610;
             per_service_costs :=
               [("primary_care"%string, 60); ("specialist"%string, 750)] |}.
Proof. split; vm_compute; reflexivity. Qed.

(** ** A copay field always wins (C10) *)

Lemma price_service_branch plan deductible acc service visits p :
  price_service plan deductible acc service visits = inr p ->
  taken p <> DeductibleThenCopay /\ taken p <> MetCopay.
Proof.
  unfold price_service. intro H. ok_steps H.
  destruct a1.
  - ok_steps H. injection H as <-. simpl. split; discriminate.
  - destruct (existsb _ _).
    + destruct (String.eqb service "generic_drugs");
        ok_steps H; injection H as <-; simpl; split; discriminate.
    + destruct (existsb _ _).
      * ok_steps H; injection H as <-; simpl; split; discriminate.
      * unfold deductible_subject in H. ok_steps H.
        destruct (Qltb 0 _); [destruct (Qltb _ _)|];
          rewrite ?Ha1 in H; cbn [bind] in H;
          ok_steps H; injection H as <-; simpl; split; discriminate.
Qed.

(** C10. When the resolved in-network rule of a service has a [copay]
    field, pricing the service takes the flat-copay branch: the cost is
    [visits * copay] and the deductible accumulator is untouched, whatever
    the list of services covered before the deductible.  The two copay tests
    inside the deductible-subject path are never the branch taken, for any
    plan and any service. *)
Theorem copay_field_takes_flat_copay plan deductible acc service visits in_network :
  resolve plan service = inr in_network ->
  contains "copay" in_network = inr true ->
  (forall unit_price copay,
     lookup base_service_costs service = inr unit_price ->
     getnum in_network "copay" = inr copay ->
     price_service plan deductible acc service visits
       = inr {| cost := inject_Z visits * copay;
                deductible_after := acc;
                taken := FlatCopay |}) /\
  (forall p,
     price_service plan deductible acc service visits = inr p ->
     taken p = FlatCopay /\ deductible_after p = acc /\
     exists copay, getnum in_network "copay" = inr copay /\
                   cost p = inject_Z visits * copay) /\
  (forall plan' deductible' acc' service' visits' p',
     price_service plan' deductible' acc' service' visits' = inr p' ->
     taken p' <> DeductibleThenCopay /\ taken p' <> MetCopay).
Proof.
  intros R C. split; [|split].
  - intros unit_price copay U G. unfold price_service.
    rewrite U, R. unfold bind at 1 2. rewrite C. unfold bind at 1.
    rewrite G. reflexivity.
  - intros p H. unfold price_service in H. ok_steps H.
    rewrite R in Ha0. injection Ha0 as <-.
    rewrite C in Ha1. injection Ha1 as <-.
    ok_steps H. injection H as <-. simpl. eauto.
  - intros. eapply price_service_branch; eauto.
Qed.

Lemma copay_field_takes_flat_copay_witness :
  price_service scenario_plan (VNum 1000) 0 "primary_care" 2
    = inr {| cost := inject_Z 2 * 30; deductible_after := 0; taken := FlatCopay |}.
Proof.
  apply (copay_field_takes_flat_copay scenario_plan (VNum 1000) 0 "primary_care" 2
           (VDict [("copay"%string, VNum 30)]) eq_refl eq_refl) with (unit_price := 150%Z).
  - reflexivity.
  - reflexivity.
Defined.

(** ** Deductible depletion by a plain coinsurance service (C2) *)

Lemma deductible_subject_coinsurance deductible d acc base_cost visits in_network c :
  as_num deductible = inr d ->
  contains "copay" in_network = inr false ->
  getnum in_network "coinsurance" = inr c ->
  let remaining_deductible := py_max 0 (d - acc) in
  exists p,
    deductible_subject deductible acc base_cost visits in_network = inr p /\
    0 <= remaining_deductible /\
    (0 < remaining_deductible ->
       cost p == py_min base_cost remaining_deductible
                 + (base_cost - py_min base_cost remaining_deductible) * (c / 100) /\
       deductible_after p = acc + py_min base_cost remaining_deductible) /\
    (remaining_deductible == 0 ->
       cost p = base_cost * (c / 100) /\ deductible_after p = acc).
Proof.
  intros D C G rem. unfold deductible_subject. rewrite D. cbn [bind]. fold rem.
  assert (Hrem : 0 <= rem).
  { subst rem. destruct (py_max_cases 0 (d - acc)) as [[L ->]|[L ->]]; lra. }
  destruct (Qltb_cases 0 rem) as [[E L]|[E L]]; rewrite E.
  - destruct (Qltb_cases (py_min base_cost rem) base_cost) as [[E' L']|[E' L']];
      rewrite E'.
    + rewrite C. cbn [bind]. rewrite G. cbn [bind].
      eexists. split; [reflexivity|]. simpl. split; [exact Hrem|]. split.
      * intros _. split; reflexivity.
      * intro Z. rewrite Z in L. lra.
    + eexists. split; [reflexivity|]. simpl. split; [exact Hrem|]. split.
      * intros _. split; [|reflexivity].
        destruct (py_min_cases base_cost rem) as [[M Em]|[M Em]];
          rewrite Em in *; [lra | ring].
      * intro Z. rewrite Z in L. lra.
  - rewrite C. cbn [bind]. rewrite G. cbn [bind].
    eexists. split; [reflexivity|]. simpl. split; [exact Hrem|]. split.
    + intro P. lra.
    + intros _. split; reflexivity.
Qed.

Lemma iteration_coinsurance
    plan deductible d t service visits unit_price in_network c :
  as_num deductible = inr d ->
  lookup base_service_costs service = inr unit_price ->
  resolve plan service = inr in_network ->
  contains "copay" in_network = inr false ->
  getnum in_network "coinsurance" = inr c ->
  existsb (String.eqb service) ["generic_drugs"; "specialty_drugs"]%string = false ->
  existsb (String.eqb service) (services_covered_before_deductible plan) = false ->
  let base_cost := inject_Z (unit_price * visits) in
  let remaining_deductible := py_max 0 (d - accumulated_deductible t) in
  exists t' charged,
    iteration plan deductible t service visits = inr t' /\
    service_costs t' = dict_set (service_costs t) service charged /\
    accumulated_total t' == accumulated_total t + charged /\
    0 <= remaining_deductible /\
    (0 < remaining_deductible ->
       charged == py_min base_cost remaining_deductible
                  + (base_cost - py_min base_cost remaining_deductible) * (c / 100) /\
       accumulated_deductible t'
         == accumulated_deductible t + py_min base_cost remaining_deductible) /\
    (remaining_deductible == 0 ->
       charged == base_cost * (c / 100) /\
       accumulated_deductible t' == accumulated_deductible t).
Proof.
  intros D U R C G Drug Covered base_cost rem.
  destruct (deductible_subject_coinsurance deductible d (accumulated_deductible t)
              base_cost (inject_Z visits) in_network c D C G)
    as (p & P & Hrem & Hpos & Hzero).
  fold rem in Hrem, Hpos, Hzero.
  unfold iteration. destruct (Z.eqb_spec visits 0) as [Z|NZ].
  - eexists. exists 0. split; [reflexivity|]. simpl.
    split; [reflexivity|]. split; [ring|].
    assert (B0 : base_cost = 0).
    { subst base_cost visits. now rewrite Z.mul_0_r. }
    split; [exact Hrem|]. split.
    + intro L. rewrite B0.
      destruct (py_min_cases 0 rem) as [[M Em]|[M Em]]; rewrite Em; [lra|].
      split; ring.
    + intros _. rewrite B0. split; ring.
  - unfold price_service. rewrite U, R. cbn [bind]. rewrite C. cbn [bind].
    rewrite Drug, Covered. fold base_cost. rewrite P. cbn [bind].
    eexists. exists (cost p). split; [reflexivity|]. simpl.
    split; [reflexivity|]. split; [reflexivity|].
    split; [exact Hrem|]. split.
    + intro L. destruct (Hpos L) as [Ec Ed]. rewrite Ed. split; [exact Ec|reflexivity].
    + intro Z. destruct (Hzero Z) as [Ec Ed]. rewrite Ec, Ed. split; reflexivity.
Qed.

(** C2. A service that is subject to the deductible and has a plain
    coinsurance rule, processed when the deductible accumulator is [d0], is
    charged as follows, with [remaining = max(0, deductible - d0)]: when
    [remaining > 0], [min(base, remaining)] plus the coinsurance share of
    [base - min(base, remaining)], and the accumulator grows by
    [min(base, remaining)]; when [remaining == 0], the coinsurance share of
    [base], and the accumulator is unchanged. *)
Theorem deductible_subject_charge
    plan deductible d t service visits unit_price in_network c :
  as_num deductible = inr d ->
  lookup base_service_costs service = inr unit_price ->
  resolve plan service = inr in_network ->
  contains "copay" in_network = inr false ->
  getnum in_network "coinsurance" = inr c ->
  existsb (String.eqb service) ["generic_drugs"; "specialty_drugs"]%string = false ->
  existsb (String.eqb service) (services_covered_before_deductible plan) = false ->
  let base_cost := inject_Z (unit_price * visits) in
  let remaining_deductible := py_max 0 (d - accumulated_deductible t) in
  exists t' charged,
    iteration plan deductible t service visits = inr t' /\
    dict_get (service_costs t') service = Some charged /\
    accumulated_total t' == accumulated_total t + charged /\
    0 <= remaining_deductible /\
    (0 < remaining_deductible ->
       charged == py_min base_cost remaining_deductible
                  + (base_cost - py_min base_cost remaining_deductible) * (c / 100) /\
       accumulated_deductible t'
         == accumulated_deductible t + py_min base_cost remaining_deductible) /\
    (remaining_deductible == 0 ->
       charged == base_cost * (c / 100) /\
       accumulated_deductible t' == accumulated_deductible t).
Proof.
  intros D U R C G Drug Covered base_cost rem.
  destruct (iteration_coinsurance plan deductible d t service visits unit_price
              in_network c D U R C G Drug Covered)
    as (t' & charged & I & S & rest).
  exists t', charged. split; [exact I|]. split; [|exact rest].
  rewrite S. apply dict_get_set_same.
Qed.

Lemma deductible_subject_charge_witness :
  exists t' charged,
    iteration scenario_plan (VNum 1000) partly_used "specialist" 3 = inr t' /\
    dict_get (service_costs t') "specialist" = Some charged /\
    accumulated_total t' == accumulated_total partly_used + charged /\
    0 <= py_max 0 (1000 - 700) /\
    (0 < py_max 0 (1000 - 700) ->
       charged == py_min 750 (py_max 0 (1000 - 700))
                  + (750 - py_min 750 (py_max 0 (1000 - 700))) * (20 / 100) /\
       accumulated_deductible t'
         == accumulated_deductible partly_used + py_min 750 (py_max 0 (1000 - 700))) /\
    (py_max 0 (1000 - 700) == 0 ->
       charged == 750 * (20 / 100) /\
       accumulated_deductible t' == accumulated_deductible partly_used).
Proof.
  apply (deductible_subject_charge scenario_plan (VNum 1000) 1000 partly_used
           "specialist" 3 250 (VDict [("coinsurance"%string, VNum 20)]) 20);
    reflexivity.
Defined.

(** ** Order of deductible depletion (C4) *)

(** Primary care (2 visits, $300) at 10% and urgent care (2 visits, $400)
    at 50% under a $500 deductible: the two orders give $600 and $520. *)
Lemma order_changes_sum :
  exists ab ba,
    getnum (deductibles split_plan) "overall" = inr 500 /\
    inject_Z (150 * 2) = 300 /\ inject_Z (200 * 2) = 400 /\
    calculate_service_costs split_plan
      [("primary_care"%string, 2%Z); ("urgent_care"%string, 2%Z)] = inr ab /\
    calculate_service_costs split_plan
      [("urgent_care"%string, 2%Z); ("primary_care"%string, 2%Z)] = inr ba /\
    py_sum (values ab) == 600 /\
    py_sum (values ba) == 520 /\
    ~ py_sum (values ab) == py_sum (values ba).
Proof.
  eexists. eexists.
  repeat (split; [vm_compute; reflexivity|]).
  vm_compute. discriminate.
Qed.

(** C4 (amended). With a $500 deductible and two distinct plain coinsurance
    services subject to the deductible, A of base cost $300 at [cA] percent
    and B of base cost $400 at [cB] percent, the first pass charges, in the
    order A, B: $300 for A and $200 plus [cB] percent of $200 for B; in the
    order B, A: $400 for B and $100 plus [cA] percent of $200 for A.  The
    two sums agree exactly when [cA] and [cB] are equal, the cost of A
    changes unless [cA] is 100 and the cost of B changes unless [cB] is
    100. *)
Theorem deductible_order plan overall A B vA vB pA pB inA inB cA cB :
  as_num overall = inr 500 ->
  A <> B ->
  lookup base_service_costs A = inr pA -> (pA * vA = 300)%Z ->
  lookup base_service_costs B = inr pB -> (pB * vB = 400)%Z ->
  resolve plan A = inr inA -> contains "copay" inA = inr false ->
  getnum inA "coinsurance" = inr cA ->
  resolve plan B = inr inB -> contains "copay" inB = inr false ->
  getnum inB "coinsurance" = inr cB ->
  existsb (String.eqb A) ["generic_drugs"; "specialty_drugs"]%string = false ->
  existsb (String.eqb B) ["generic_drugs"; "specialty_drugs"]%string = false ->
  existsb (String.eqb A) (services_covered_before_deductible plan) = false ->
  existsb (String.eqb B) (services_covered_before_deductible plan) = false ->
  exists tAB tBA a1 b1 a2 b2,
    first_pass plan overall [(A, vA); (B, vB)] tracking0 = inr tAB /\
    service_costs tAB = [(A, a1); (B, b1)] /\
    a1 == 300 /\ b1 == 200 + 200 * (cB / 100) /\
    first_pass plan overall [(B, vB); (A, vA)] tracking0 = inr tBA /\
    service_costs tBA = [(B, b2); (A, a2)] /\
    b2 == 400 /\ a2 == 100 + 200 * (cA / 100) /\
    (a1 + b1 == a2 + b2 <-> cA == cB) /\
    (a1 == a2 <-> cA == 100) /\
    (b1 == b2 <-> cB == 100).
Proof.
  intros D NE UA EA UB EB RA CA GA RB CB GB DA DB SA SB.
  assert (NEb : String.eqb B A = false).
  { apply String.eqb_neq. congruence. }
  assert (NEa : String.eqb A B = false).
  { apply String.eqb_neq. congruence. }
  (* order A, B *)
  destruct (iteration_coinsurance plan overall 500 tracking0 A vA pA inA cA
              D UA RA CA GA DA SA) as (t1 & a1 & I1 & S1 & _ & _ & P1 & _).
  rewrite EA in P1. simpl in P1, S1.
  assert (R1 : py_max 0 (500 - 0) == 500).
  { destruct (py_max_cases 0 (500 - 0)) as [[L ->]|[L ->]]; lra. }
  assert (M1 : py_min 300 (py_max 0 (500 - 0)) == 300).
  { destruct (py_min_cases 300 (py_max 0 (500 - 0))) as [[L ->]|[L ->]]; lra. }
  destruct P1 as [Ha1 Hd1]; [lra|]. change (inject_Z 300) with 300 in Ha1, Hd1.
  rewrite M1 in Ha1, Hd1.
  destruct (iteration_coinsurance plan overall 500 t1 B vB pB inB cB
              D UB RB CB GB DB SB) as (t2 & b1 & I2 & S2 & _ & _ & P2 & _).
  rewrite EB in P2. change (inject_Z 400) with 400 in P2.
  assert (R2 : py_max 0 (500 - accumulated_deductible t1) == 200).
  { destruct (py_max_cases 0 (500 - accumulated_deductible t1)) as [[L ->]|[L ->]]; lra. }
  assert (M2 : py_min 400 (py_max 0 (500 - accumulated_deductible t1)) == 200).
  { destruct (py_min_cases 400 (py_max 0 (500 - accumulated_deductible t1)))
      as [[L ->]|[L ->]]; lra. }
  destruct P2 as [Hb1 _]; [lra|]. rewrite M2 in Hb1.
  (* order B, A *)
  destruct (iteration_coinsurance plan overall 500 tracking0 B vB pB inB cB
              D UB RB CB GB DB SB) as (u1 & b2 & J1 & T1 & _ & _ & Q1 & _).
  rewrite EB in Q1. simpl in Q1, T1. change (inject_Z 400) with 400 in Q1.
  assert (N1 : py_min 400 (py_max 0 (500 - 0)) == 400).
  { destruct (py_min_cases 400 (py_max 0 (500 - 0))) as [[L ->]|[L ->]]; lra. }
  destruct Q1 as [Hb2 He1]; [lra|]. rewrite N1 in Hb2, He1.
  destruct (iteration_coinsurance plan overall 500 u1 A vA pA inA cA
              D UA RA CA GA DA SA) as (u2 & a2 & J2 & T2 & _ & _ & Q2 & _).
  rewrite EA in Q2. change (inject_Z 300) with 300 in Q2.
  assert (R3 : py_max 0 (500 - accumulated_deductible u1) == 100).
  { destruct (py_max_cases 0 (500 - accumulated_deductible u1)) as [[L ->]|[L ->]]; lra. }
  assert (N2 : py_min 300 (py_max 0 (500 - accumulated_deductible u1)) == 100).
  { destruct (py_min_cases 300 (py_max 0 (500 - accumulated_deductible u1)))
      as [[L ->]|[L ->]]; lra. }
  destruct Q2 as [Ha2 _]; [lra|]. rewrite N2 in Ha2.
  assert (XA : cA == 100 * (cA / 100)) by field.
  assert (XB : cB == 100 * (cB / 100)) by field.
  set (xA := cA / 100) in *. set (xB := cB / 100) in *.
  exists t2, u2, a1, b1, a2, b2.
  split. { simpl. rewrite I1. cbn [bind]. rewrite I2. reflexivity. }
  split. { rewrite S2, S1. simpl. rewrite NEb. reflexivity. }
  split. { lra. }
  split. { lra. }
  split. { simpl. rewrite J1. cbn [bind]. rewrite J2. reflexivity. }
  split. { rewrite T2, T1. simpl. rewrite NEa. reflexivity. }
  split. { lra. }
  split. { lra. }
  split; [|split]; split; intro H; lra.
Qed.

Lemma deductible_order_witness :
  exists tAB tBA a1 b1 a2 b2,
    first_pass split_plan (VNum 500)
      [("primary_care"%string, 2%Z); ("urgent_care"%string, 2%Z)] tracking0 = inr tAB /\
    service_costs tAB = [("primary_care"%string, a1); ("urgent_care"%string, b1)] /\
    a1 == 300 /\ b1 == 200 + 200 * (50 / 100) /\
    first_pass split_plan (VNum 500)
      [("urgent_care"%string, 2%Z); ("primary_care"%string, 2%Z)] tracking0 = inr tBA /\
    service_costs tBA = [("urgent_care"%string, b2); ("primary_care"%string, a2)] /\
    b2 == 400 /\ a2 == 100 + 200 * (10 / 100) /\
    (a1 + b1 == a2 + b2 <-> 10 == 50) /\
    (a1 == a2 <-> 10 == 100) /\
    (b1 == b2 <-> 50 == 100).
Proof.
  apply (deductible_order split_plan (VNum 500) "primary_care" "urgent_care"
           2 2 150 200
           (VDict [("coinsurance"%string, VNum 10)])
           (VDict [("coinsurance"%string, VNum 50)]) 10 50);
    try reflexivity.
  intro H. discriminate H.
Defined.

(** ** Proportional clawback (C5) *)



(** ** Configuration errors abort the allocation (C6) *)

Create HintDb config_errors.

Lemma lookup_error {V} (d : dict V) k e :
  lookup d k = inl e -> configuration_error e.
Proof.
  unfold lookup. destruct (dict_get d k); [discriminate|].
  intro H. injection H as <-. exact I.
Qed.

Lemma getitem_error v k e : getitem v k = inl e -> configuration_error e.
Proof.
  destruct v; simpl; intro H; try (injection H as <-; exact I).
  eapply lookup_error; eauto.
Qed.

Lemma contains_error k v e : contains k v = inl e -> configuration_error e.
Proof. destruct v; simpl; intro H; try discriminate; injection H as <-; exact I. Qed.

Lemma as_num_error v e : as_num v = inl e -> configuration_error e.
Proof. destruct v; simpl; intro H; try discriminate; injection H as <-; exact I. Qed.

#[local] Hint Resolve lookup_error getitem_error contains_error as_num_error
  : config_errors.

(** Splits a failed monadic computation in the hypothesis [H]: either a
    step failed, which the hint database settles, or the rest did. *)
Ltac failed_steps H :=
  repeat match type of H with
  | bind _ _ = inl _ =>
      let a := fresh "a" in let Ha := fresh "Ha" in
      apply bind_inl in H; destruct H as [H|(a & Ha & H)];
      [solve [eauto with config_errors]|]
  | ret _ = inl _ => discriminate H
  | inr _ = inl _ => discriminate H
  end.

Lemma getnum_error v k e : getnum v k = inl e -> configuration_error e.
Proof. unfold getnum. intro H. failed_steps H. eauto with config_errors. Qed.

Lemma walk_error path : forall v e, walk v path = inl e -> configuration_error e.
Proof.
  induction path as [|part rest IH]; simpl; intros v e H; [discriminate|].
  failed_steps H. eauto.
Qed.

#[local] Hint Resolve getnum_error walk_error : config_errors.

Lemma resolve_error plan service e :
  resolve plan service = inl e -> configuration_error e.
Proof. unfold resolve. intro H. failed_steps H. eauto with config_errors. Qed.

#[local] Hint Resolve resolve_error : config_errors.

Lemma price_service_error plan deductible acc service visits e :
  price_service plan deductible acc service visits = inl e -> configuration_error e.
Proof.
  unfold price_service, deductible_subject. intro H. failed_steps H.
  repeat match type of H with
         | (if ?b then _ else _) = inl _ => destruct b
         | _ => progress failed_steps H
         end;
    eauto with config_errors.
Qed.

Lemma iteration_error plan deductible t service visits e :
  iteration plan deductible t service visits = inl e -> configuration_error e.
Proof.
  unfold iteration. destruct (visits =? 0)%Z; intro H; [discriminate|].
  apply bind_inl in H. destruct H as [H|(p & _ & H)]; [|discriminate].
  eapply price_service_error; eauto.
Qed.

Lemma first_pass_error plan deductible usage : forall t e,
  first_pass plan deductible usage t = inl e -> configuration_error e.
Proof.
  induction usage as [|[service visits] rest IH]; simpl; intros t e H; [discriminate|].
  apply bind_inl in H. destruct H as [H|(t' & _ & H)]; eauto using iteration_error.
Qed.

Lemma unresolvable_price plan deductible acc service visits :
  unresolvable plan service ->
  exists e, price_service plan deductible acc service visits = inl e.
Proof.
  intro U. unfold price_service.
  destruct (lookup base_service_costs service) as [e0|unit_price]; [simpl; eauto|].
  cbn [bind].
  destruct U as [e R | in_network e R C -> G | in_network e R C -> G
                | in_network e R C -> G]; rewrite R; cbn [bind].
  - eauto.
  - rewrite C. cbn [bind]. simpl. unfold getnum. rewrite G. simpl. eauto.
  - rewrite C. cbn [bind]. simpl. unfold getnum. rewrite G. simpl. eauto.
  - rewrite C. cbn [bind]. simpl.
    destruct (getnum in_network "retail_coinsurance"); cbn [bind]; [eauto|].
    rewrite G. simpl. eauto.
Qed.

Lemma first_pass_aborts plan deductible usage service visits :
  In (service, visits) usage ->
  visits <> 0%Z ->
  unresolvable plan service ->
  forall t, exists e, first_pass plan deductible usage t = inl e.
Proof.
  intros Hin NZ U. induction usage as [|[s v] rest IH]; [destruct Hin|].
  intro t. simpl.
  destruct (iteration plan deductible t s v) as [e|t'] eqn:E; cbn [bind]; [eauto|].
  destruct Hin as [Heq|Hin]; [|apply IH; exact Hin].
  injection Heq as -> ->. unfold iteration in E.
  apply Z.eqb_neq in NZ. rewrite NZ in E.
  destruct (unresolvable_price plan deductible (accumulated_deductible t)
              service visits U) as [e Pe].
  rewrite Pe in E. discriminate E.
Qed.

(** C6. When the usage has a service with a non-zero count whose
    cost-sharing rule cannot be resolved in the plan (or whose drug tier
    lacks the field it requires), the allocator raises a configuration
    error (KeyError or TypeError in the source) and returns no costs, and
    the aggregator propagates the same exception to its caller. *)
Theorem unresolved_rule_aborts plan usage service visits :
  In (service, visits) usage ->
  visits <> 0%Z ->
  unresolvable plan service ->
  exists e,
    calculate_service_costs plan usage = inl e /\
    configuration_error e /\
    calculate_annual_cost plan usage = inl e.
Proof.
  intros Hin NZ U.
  assert (A : exists e, calculate_service_costs plan usage = inl e /\
                        configuration_error e).
  { unfold calculate_service_costs.
    destruct (getitem (out_of_pocket_limit plan) "individual") as [e|limit] eqn:L;
      cbn [bind]; [eauto with config_errors|].
    destruct (getitem (deductibles plan) "overall") as [e|deductible] eqn:D;
      cbn [bind]; [eauto with config_errors|].
    destruct (first_pass_aborts plan deductible usage service visits Hin NZ U tracking0)
      as [e F].
    rewrite F. cbn [bind]. eauto using first_pass_error. }
  destruct A as (e & C & K). exists e. split; [exact C|]. split; [exact K|].
  unfold calculate_annual_cost. rewrite C. reflexivity.
Qed.

Lemma unresolved_rule_aborts_witness :
  exists e,
    calculate_service_costs scenario_plan
      [("primary_care"%string, 1%Z); ("lab_work"%string, 2%Z)] = inl e /\
    configuration_error e /\
    calculate_annual_cost scenario_plan
      [("primary_care"%string, 1%Z); ("lab_work"%string, 2%Z)] = inl e.
Proof.
  apply (unresolved_rule_aborts scenario_plan
           [("primary_care"%string, 1%Z); ("lab_work"%string, 2%Z)]
           "lab_work" 2).
  - simpl. right. left. reflexivity.
  - lia.
  - apply (no_rule scenario_plan "lab_work" (KeyError "diagnostic_test")).
    reflexivity.
Defined.

(** ** Copay and drug services leave the deductible alone (C7) *)

Lemma first_pass_app plan deductible pre post t :
  first_pass plan deductible (pre ++ post) t
  = bind (first_pass plan deductible pre t) (first_pass plan deductible post).
Proof.
  revert t. induction pre as [|[s v] pre IH]; intro t; simpl; [reflexivity|].
  destruct (iteration plan deductible t s v) as [e|t']; cbn [bind]; auto.
Qed.

Lemma price_service_neutral plan deductible acc service visits in_network p :
  resolve plan service = inr in_network ->
  contains "copay" in_network = inr true \/
  existsb (String.eqb service) ["generic_drugs"; "specialty_drugs"]%string = true ->
  price_service plan deductible acc service visits = inr p ->
  deductible_after p = acc.
Proof.
  intros R Kind H. unfold price_service in H. ok_steps H.
  rewrite R in Ha0. injection Ha0 as <-.
  destruct a1.
  - ok_steps H. injection H as <-. reflexivity.
  - destruct Kind as [C|Drug]; [congruence|]. rewrite Drug in H.
    destruct (String.eqb service "generic_drugs");
      ok_steps H; injection H as <-; reflexivity.
Qed.

Section Frame.
Variable plan : InsurancePlan.
Variable deductible : value.
Variable service : string.

Lemma dict_set_agree (d d' : dict Q) k c :
  (forall other, other <> service -> dict_get d other = dict_get d' other) ->
  forall other, other <> service ->
    dict_get (dict_set d k c) other = dict_get (dict_set d' k c) other.
Proof.
  intros H other N. destruct (string_dec other k) as [->|N'].
  - now rewrite !dict_get_set_same.
  - rewrite !dict_get_set_other by exact N'. auto.
Qed.

Lemma iteration_agree t u s v t' :
  agree_except service t u ->
  iteration plan deductible t s v = inr t' ->
  exists u', iteration plan deductible u s v = inr u' /\ agree_except service t' u'.
Proof.
  intros [A C] H. unfold iteration in *. rewrite <- A.
  destruct (v =? 0)%Z.
  - injection H as <-. eexists. split; [reflexivity|]. split; simpl; [reflexivity|].
    now apply dict_set_agree.
  - ok_steps H. injection H as <-. rewrite Ha. cbn [bind].
    eexists. split; [reflexivity|]. split; simpl; [reflexivity|].
    now apply dict_set_agree.
Qed.

Lemma first_pass_agree usage : forall t u t',
  agree_except service t u ->
  first_pass plan deductible usage t = inr t' ->
  exists u', first_pass plan deductible usage u = inr u' /\ agree_except service t' u'.
Proof.
  induction usage as [|[s v] rest IH]; simpl; intros t u t' A H.
  - injection H as <-. eauto.
  - ok_steps H. destruct (iteration_agree _ _ _ _ _ A Ha) as (u1 & I & A1).
    rewrite I. cbn [bind]. eauto.
Qed.

Lemma insertion_agree pre post visits in_network t1 :
  resolve plan service = inr in_network ->
  contains "copay" in_network = inr true \/
  existsb (String.eqb service) ["generic_drugs"; "specialty_drugs"]%string = true ->
  first_pass plan deductible (pre ++ (service, visits) :: post) tracking0 = inr t1 ->
  exists t0,
    first_pass plan deductible (pre ++ post) tracking0 = inr t0 /\ agree_except service t1 t0.
Proof.
  intros R Kind H. rewrite first_pass_app in H. simpl in H. ok_steps H.
  rewrite first_pass_app. rewrite Ha. cbn [bind].
  apply (first_pass_agree post a0 a); [|exact H].
  unfold iteration in Ha0. destruct (visits =? 0)%Z.
  - injection Ha0 as <-. split; simpl; [reflexivity|].
    intros other N. now apply dict_get_set_other.
  - ok_steps Ha0. injection Ha0 as <-. split; simpl.
    + eapply price_service_neutral; eauto.
    + intros other N. now apply dict_get_set_other.
Qed.
End Frame.

(** C7. A service priced by a flat copay or by a drug tier never changes
    the deductible accumulator; removing it from anywhere in the usage
    leaves the first-pass cost of every other service, and the final
    accumulator, exactly as they were with it. *)
Theorem copay_and_drugs_frame plan deductible pre post service visits in_network t1 :
  resolve plan service = inr in_network ->
  contains "copay" in_network = inr true \/
  existsb (String.eqb service) ["generic_drugs"; "specialty_drugs"]%string = true ->
  first_pass plan deductible (pre ++ (service, visits) :: post) tracking0 = inr t1 ->
  (forall acc p,
     price_service plan deductible acc service visits = inr p ->
     deductible_after p = acc) /\
  exists t0,
    first_pass plan deductible (pre ++ post) tracking0 = inr t0 /\
    accumulated_deductible t1 = accumulated_deductible t0 /\
    forall other, other <> service ->
      dict_get (service_costs t1) other = dict_get (service_costs t0) other.
Proof.
  intros R Kind H. split.
  - intros acc p P. eapply price_service_neutral; eauto.
  - destruct (insertion_agree plan deductible service pre post visits in_network t1
                R Kind H) as (t0 & F & A & C).
    exists t0. auto.
Qed.

Lemma copay_and_drugs_frame_witness :
  exists t1,
    first_pass split_plan (VNum 500)
      ([("primary_care"%string, 2%Z)] ++ ("specialist"%string, 3%Z)
         :: [("urgent_care"%string, 2%Z)]) tracking0 = inr t1 /\
    ((forall acc p,
        price_service split_plan (VNum 500) acc "specialist" 3 = inr p ->
        deductible_after p = acc) /\
     exists t0,
       first_pass split_plan (VNum 500)
         ([("primary_care"%string, 2%Z)] ++ [("urgent_care"%string, 2%Z)]) tracking0
         = inr t0 /\
       accumulated_deductible t1 = accumulated_deductible t0 /\
       forall other, other <> "specialist"%string ->
         dict_get (service_costs t1) other = dict_get (service_costs t0) other).
Proof.
  destruct (first_pass split_plan (VNum 500)
              ([("primary_care"%string, 2%Z)] ++ ("specialist"%string, 3%Z)
                 :: [("urgent_care"%string, 2%Z)]) tracking0) as [e|t1] eqn:F.
  - vm_compute in F. discriminate F.
  - exists t1. split; [reflexivity|].
    apply (copay_and_drugs_frame split_plan (VNum 500)
             [("primary_care"%string, 2%Z)] [("urgent_care"%string, 2%Z)]
             "specialist" 3 (VDict [("copay"%string, VNum 40)]) t1).
    + reflexivity.
    + left. reflexivity.
    + exact F.
Defined.

(** ** Rounding *)

Lemma Qltb_compat (x x' y y' : Q) : x == x' -> y == y' -> Qltb x y = Qltb x' y'.
Proof.
  intros Ex Ey.
  destruct (Qltb_cases x y) as [[E L]|[E L]];
    destruct (Qltb_cases x' y') as [[E' L']|[E' L']]; rewrite E, E'; try reflexivity;
    rewrite Ex, Ey in L; lra.
Qed.

Lemma py_max_compat (x y : Q) : x == y -> py_max 0 x == py_max 0 y.
Proof.
  intro E. unfold py_max. rewrite (Qltb_compat 0 0 x y (Qeq_refl 0) E).
  destruct (Qltb 0 y); [exact E | reflexivity].
Qed.

Lemma py_round_compat (x y : Q) : x == y -> py_round x = py_round y.
Proof.
  intro E. unfold py_round.
  assert (F : Qfloor x = Qfloor y) by (now rewrite E).
  rewrite F.
  assert (R : x - inject_Z (Qfloor y) == y - inject_Z (Qfloor y)) by (now rewrite E).
  rewrite (Qltb_compat _ _ _ _ R (Qeq_refl (1 # 2))).
  rewrite (Qltb_compat _ _ _ _ (Qeq_refl (1 # 2)) R).
  reflexivity.
Qed.

Lemma nearest_count_compat (x y : Q) : x == y -> nearest_count x = nearest_count y.
Proof. intro E. apply py_round_compat, py_max_compat, E. Qed.

Lemma nearest_count_nonpos (x : Q) : x <= 0 -> nearest_count x = 0%Z.
Proof.
  intro H. unfold nearest_count, py_max.
  apply Qltb_false in H. rewrite H. reflexivity.
Qed.

Lemma floor_bounds (x : Q) :
  inject_Z (Qfloor x) <= x /\ x < inject_Z (Qfloor x) + 1.
Proof.
  split; [apply Qfloor_le|].
  pose proof (Qlt_floor x) as H. rewrite inject_Z_plus in H. exact H.
Qed.

Lemma py_round_cases (x : Q) :
  (py_round x = Qfloor x /\ x - inject_Z (Qfloor x) <= 1 # 2) \/
  (py_round x = (Qfloor x + 1)%Z /\ 1 # 2 <= x - inject_Z (Qfloor x)).
Proof.
  unfold py_round.
  destruct (Qltb_cases (x - inject_Z (Qfloor x)) (1 # 2)) as [[E L]|[E L]]; rewrite E.
  - left. split; [reflexivity | lra].
  - destruct (Qltb_cases (1 # 2) (x - inject_Z (Qfloor x))) as [[E' L']|[E' L']];
      rewrite E'.
    + right. split; [reflexivity | lra].
    + destruct (Z.even (Qfloor x)); [left | right]; split; auto.
Qed.

Lemma py_round_nearest (x : Q) : Qabs (inject_Z (py_round x) - x) <= 1 # 2.
Proof.
  destruct (floor_bounds x) as [Lo Hi].
  apply Qabs_Qle_condition.
  destruct (py_round_cases x) as [[-> H]|[-> H]].
  - split; lra.
  - rewrite inject_Z_plus. change (inject_Z 1) with 1. split; lra.
Qed.



(** ** The raw cost levels of the curve (C8) *)




Lemma curve_totals_points plan levels : forall totals,
  curve_totals plan levels = inr totals ->
  Forall2 (curve_point plan) levels totals.
Proof.
  induction levels as [|raw rest IH]; simpl; intros totals H.
  - injection H as <-. constructor.
  - ok_steps H. injection H as <-. constructor; [|auto].
    exists a. auto.
Qed.



(** ** The synthesized usage agrees with the specification's wording *)

Lemma share_percent_nonneg (t : tier) (category : string) :
  0 <= share_percent t category.
Proof.
  unfold share_percent. destruct t; simpl;
    repeat match goal with
           | |- context [String.eqb ?a ?b] => destruct (String.eqb a b)
           end; unfold Qle; simpl; lia.
Qed.

Lemma spec_units_nonpos raw_cost category base_price :
  raw_cost <= 0 -> (0 < base_price)%Z ->
  spec_units raw_cost category base_price = 0%Z.
Proof.
  intros H P. unfold spec_units.
  destruct (Qeq_bool raw_cost 0); [reflexivity|].
  apply nearest_count_nonpos.
  pose proof (share_percent_nonneg (tier_of raw_cost) category) as S.
  assert (I : 0 < / inject_Z base_price).
  { apply Qinv_lt_0_compat. unfold Qlt. simpl. lia. }
  assert (K : 0 <= share_percent (tier_of raw_cost) category / 100 * / inject_Z base_price).
  { apply Qmult_le_0_compat; [|lra].
    unfold Qdiv. apply Qmult_le_0_compat; [exact S|]. unfold Qle. simpl. lia. }
  assert (M : 0 <= (- raw_cost)
                   * (share_percent (tier_of raw_cost) category / 100 * / inject_Z base_price)).
  { apply Qmult_le_0_compat; [lra | exact K]. }
  unfold Qdiv in *. lra.
Qed.

Lemma spec_units_pos raw_cost category base_price :
  0 < raw_cost ->
  spec_units raw_cost category base_price
  = nearest_count
      (raw_cost * (share_percent (tier_of raw_cost) category / 100)
       / inject_Z base_price).
Proof.
  intro H. unfold spec_units.
  destruct (Qeq_bool raw_cost 0) eqn:E; [|reflexivity].
  apply Qeq_bool_iff in E. rewrite E in H. lra.
Qed.

Lemma entry_cong {V} (k : string) (x y : V) (l l' : dict V) :
  x = y -> l = l' -> (k, x) :: l = (k, y) :: l'.
Proof. intros -> ->. reflexivity. Qed.

Lemma synthesize_refines (raw_cost : Q) : synthesize raw_cost = spec_usage raw_cost.
Proof.
  unfold synthesize, spec_usage, fractional_usage, base_service_costs.
  destruct (Qltb_cases 0 raw_cost) as [[E L]|[E L]]; rewrite E.
  - cbn [map fst snd]. rewrite !(spec_units_pos raw_cost _ _ L).
    unfold tier_of.
    destruct (Qle_bool raw_cost 1000); [|destruct (Qle_bool raw_cost 5000)];
      cbn [map fst snd];
      repeat (apply entry_cong;
              [apply nearest_count_compat; unfold share_percent; simpl; field|]);
      reflexivity.
  - cbn [map fst snd]. rewrite !(spec_units_nonpos raw_cost _ _ L) by lia.
    reflexivity.
Qed.




(** ** Monotonicity of the first pass *)

Lemma base_price_pos service unit_price :
  lookup base_service_costs service = inr unit_price -> (0 < unit_price)%Z.
Proof.
  unfold lookup, base_service_costs. simpl.
  repeat match goal with
         | |- context [String.eqb ?a ?b] => destruct (String.eqb a b)
         end; intro H; try discriminate H; injection H as <-; lia.
Qed.

Lemma inject_Z_nonneg (z : Z) : (0 <= z)%Z -> 0 <= inject_Z z.
Proof. intro H. rewrite Zle_Qle in H. exact H. Qed.



(** The arithmetic of the deductible for two runs. *)
Lemma charge_mono (d a1 a2 b1 b2 k dp1 dp2 c1 c2 : Q) :
  a1 <= a2 -> 0 <= b1 -> b1 <= b2 -> 0 <= k ->
  dp1 == py_min b1 (py_max 0 (d - a1)) ->
  dp2 == py_min b2 (py_max 0 (d - a2)) ->
  c1 == dp1 + (b1 - dp1) * k ->
  c2 == dp2 + (b2 - dp2) * k ->
  a1 + dp1 <= a2 + dp2 /\ dp2 - dp1 <= c2 - c1.
Proof.
  intros A B1 B K D1 D2 C1 C2.
  assert (E : b1 - dp1 <= b2 - dp2 /\ a1 + dp1 <= a2 + dp2).
  { destruct (py_max_cases 0 (d - a1)) as [[M1 R1]|[M1 R1]]; rewrite R1 in D1;
      destruct (py_max_cases 0 (d - a2)) as [[M2 R2]|[M2 R2]]; rewrite R2 in D2;
      destruct (py_min_cases b1 (d - a1)) as [[N1 S1]|[N1 S1]];
      destruct (py_min_cases b1 0) as [[N1' S1']|[N1' S1']];
      destruct (py_min_cases b2 (d - a2)) as [[N2 S2]|[N2 S2]];
      destruct (py_min_cases b2 0) as [[N2' S2']|[N2' S2']];
      rewrite ?S1, ?S1' in D1; rewrite ?S2, ?S2' in D2; split; lra. }
  destruct E as [E1 E2]. split; [exact E2|].
  assert (P : 0 <= ((b2 - dp2) - (b1 - dp1)) * k).
  { apply Qmult_le_0_compat; lra. }
  lra.
Qed.

(** What a successful run through the deductible-subject path computes. *)
Lemma deductible_subject_shape deductible d acc base_cost visits in_network p :
  as_num deductible = inr d ->
  contains "copay" in_network = inr false ->
  0 <= base_cost ->
  deductible_subject deductible acc base_cost visits in_network = inr p ->
  exists dp,
    deductible_after p == acc + dp /\
    dp == py_min base_cost (py_max 0 (d - acc)) /\
    ((base_cost == dp /\ cost p == dp) \/
     exists c, getnum in_network "coinsurance" = inr c /\
               cost p == dp + (base_cost - dp) * (c / 100)).
Proof.
  intros D C B H. unfold deductible_subject in H. rewrite D, C in H. cbn [bind] in H.
  destruct (Qltb_cases 0 (py_max 0 (d - acc))) as [[E L]|[E L]]; rewrite E in H.
  - destruct (Qltb_cases (py_min base_cost (py_max 0 (d - acc))) base_cost)
      as [[E' L']|[E' L']]; rewrite E' in H.
    + ok_steps H. injection H as <-. simpl.
      exists (py_min base_cost (py_max 0 (d - acc))).
      split; [reflexivity|]. split; [reflexivity|]. right. exists a. split; [exact Ha|reflexivity].
    + injection H as <-. simpl.
      exists (py_min base_cost (py_max 0 (d - acc))).
      split; [reflexivity|]. split; [reflexivity|]. left. split; [|reflexivity].
      destruct (py_min_cases base_cost (py_max 0 (d - acc))) as [[M Em]|[M Em]];
        rewrite Em in *; lra.
  - ok_steps H. injection H as <-. simpl. exists 0.
    assert (Z : py_max 0 (d - acc) == 0).
    { destruct (py_max_cases 0 (d - acc)) as [[M Em]|[M Em]]; rewrite Em in *; lra. }
    split; [ring|]. split.
    + destruct (py_min_cases base_cost (py_max 0 (d - acc))) as [[M Em]|[M Em]];
        rewrite Em; lra.
    + right. exists a. split; [exact Ha|]. ring.
Qed.


Lemma price_service_bounds plan deductible service visits acc p :
  sane plan ->
  (0 < visits)%Z ->
  price_service plan deductible acc service visits = inr p ->
  acc <= deductible_after p /\ deductible_after p - acc <= cost p.
Proof.
  intros S V H. unfold price_service in H.
  destruct (lookup base_service_costs service) as [|u] eqn:U; [discriminate|].
  cbn [bind] in H.
  destruct (resolve plan service) as [|inw] eqn:R; [discriminate|].
  cbn [bind] in H.
  pose proof (base_price_pos _ _ U) as Up.
  assert (V0 : 0 <= inject_Z visits) by (apply inject_Z_nonneg; lia).
  assert (B0 : 0 <= inject_Z (u * visits)) by (apply inject_Z_nonneg; nia).
  assert (N : forall field amount, getnum inw field = inr amount -> 0 <= amount).
  { intros field amount G. exact (S _ _ _ _ R G). }
  assert (Kc : forall field c, getnum inw field = inr c -> 0 <= c / 100).
  { intros field c G. pose proof (N _ _ G). unfold Qdiv.
    apply Qmult_le_0_compat; [assumption|]. unfold Qle. simpl. lia. }
  destruct (contains "copay" inw) as [|[|]] eqn:C; [discriminate| |];
    cbn [bind] in H.
  - ok_steps H. injection H as <-. simpl.
    pose proof (Qmult_le_0_compat _ _ V0 (N _ _ Ha)). split; lra.
  - destruct (existsb (String.eqb service) _).
    + destruct (String.eqb service "generic_drugs").
      * ok_steps H. injection H as <-. simpl.
        pose proof (Qmult_le_0_compat _ _ V0 (N _ _ Ha)). split; lra.
      * ok_steps H. injection H as <-. simpl.
        assert (G3 : getnum inw "retail_max" = inr a1).
        { unfold getnum. rewrite Ha0. exact Ha1. }
        pose proof (Qmult_le_0_compat _ _ B0 (Kc _ _ Ha)).
        pose proof (Qmult_le_0_compat _ _ V0 (N _ _ G3)).
        destruct (py_min_cases (inject_Z (u * visits) * (a / 100)) (inject_Z visits * a1))
          as [[M ->]|[M ->]]; split; lra.
    + destruct (existsb (String.eqb service) _).
      * ok_steps H. injection H as <-. simpl.
        pose proof (Qmult_le_0_compat _ _ B0 (Kc _ _ Ha)). split; lra.
      * destruct (as_num deductible) as [e|d] eqn:D.
        { unfold deductible_subject in H. rewrite D in H. discriminate H. }
        destruct (deductible_subject_shape _ _ _ _ _ _ _ D C B0 H)
          as (dp & A1 & D1 & K1).
        assert (X : exists k, 0 <= k /\
                      cost p == dp + (inject_Z (u * visits) - dp) * k).
        { destruct K1 as [[E1 C1]|(c1 & G1 & C1)].
          - exists 0. split; lra.
          - exists (c1 / 100). split; [eauto | exact C1]. }
        destruct X as (k & K0 & C1).
        assert (Z0 : 0 == py_min 0 (py_max 0 (d - acc))).
        { destruct (py_max_cases 0 (d - acc)) as [[M1 R1]|[M1 R1]]; rewrite R1;
            destruct (py_min_cases 0 (d - acc)) as [[N1 S1]|[N1 S1]];
            destruct (py_min_cases 0 0) as [[N1' S1']|[N1' S1']];
            rewrite ?S1, ?S1'; lra. }
        assert (Z1 : 0 == 0 + (0 - 0) * k) by ring.
        destruct (charge_mono d acc acc 0 _ k 0 dp 0 _ (Qle_refl acc) (Qle_refl 0)
                    B0 K0 Z0 D1 Z1 C1) as [M1 M2].
        split; lra.
Qed.



(** ** Monotonicity of the synthesized usage *)


Lemma share_nonneg (b k p : Q) :
  0 <= b -> 0 <= k -> 0 < p -> 0 <= b * k / p.
Proof.
  intros B K P. unfold Qdiv.
  apply Qmult_le_0_compat; [apply Qmult_le_0_compat; assumption|].
  apply Qinv_le_0_compat. lra.
Qed.


Ltac constant_bound := unfold Qle, Qlt; simpl; lia.



Lemma synthesize_keys (raw_cost : Q) : NoDup (keys (synthesize raw_cost)).
Proof.
  rewrite synthesize_refines. unfold spec_usage, keys. rewrite map_map. simpl.
  repeat constructor; simpl; intuition discriminate.
Qed.

(** ** The curve (C9) *)


Lemma Forall2_nth_error {A B} (R : A -> B -> Prop) (l : list A) (l' : list B) :
  Forall2 R l l' ->
  forall i x y, nth_error l i = Some x -> nth_error l' i = Some y -> R x y.
Proof.
  induction 1 as [|a b l l' Rab F IH]; intros [|i] x y Hx Hy; simpl in *;
    try discriminate.
  - injection Hx as <-. injection Hy as <-. exact Rab.
  - eauto.
Qed.

Lemma dict_get_In {V} (d : dict V) k v : dict_get d k = Some v -> In (k, v) d.
Proof.
  induction d as [|[k' v'] d IH]; simpl; [discriminate|].
  destruct (String.eqb_spec k k') as [->|N].
  - intro H. injection H as <-. auto.
  - auto.
Qed.

Lemma saneb_sound (plan : InsurancePlan) : saneb plan = true -> sane plan.
Proof.
  unfold saneb, sane. intros H service in_network field amount R G.
  rewrite forallb_forall in H.
  assert (M : exists mapped, In (service, mapped) service_mapping).
  { unfold resolve in R. apply bind_inr in R. destruct R as (mapped & L & _).
    unfold lookup in L.
    destruct (dict_get service_mapping service) as [m|] eqn:E; [|discriminate].
    exists m. now apply dict_get_In. }
  destruct M as [mapped M]. specialize (H _ M). simpl in H. rewrite R in H.
  unfold getnum in G. apply bind_inr in G. destruct G as (v & Gv & Gn).
  destruct in_network as [q|b|fields]; simpl in Gv; try discriminate.
  unfold lookup in Gv. destruct (dict_get fields field) as [v'|] eqn:E; [|discriminate].
  injection Gv as ->. apply dict_get_In in E.
  simpl in H. rewrite forallb_forall in H. specialize (H _ E). simpl in H.
  rewrite Gn in H. now apply Qle_bool_iff.
Qed.





(** * Further properties of the allocator and the aggregator *)

(** ** Usage without units *)

Lemma first_pass_no_usage plan deductible usage : forall t,
  no_usage usage ->
  first_pass plan deductible usage t
  = inr {| accumulated_deductible := accumulated_deductible t;
           accumulated_total := accumulated_total t;
           service_costs :=
             fold_left (fun d e => dict_set d (fst e) 0) usage (service_costs t) |}.
Proof.
  induction usage as [|[service visits] rest IH]; intros t Z; simpl.
  - destruct t; reflexivity.
  - inversion Z as [|? ? Hz Zr]; subst. simpl in Hz. subst visits.
    unfold iteration. simpl. cbn [bind]. rewrite (IH _ Zr). reflexivity.
Qed.

Lemma zero_costs_fold usage : forall d,
  NoDup (keys usage) ->
  (forall k, In k (keys usage) -> ~ In k (keys d)) ->
  fold_left (fun d e => dict_set d (fst e) 0) usage d = d ++ zero_costs usage.
Proof.
  induction usage as [|[service visits] rest IH]; intros d ND Fresh; simpl.
  - now rewrite app_nil_r.
  - inversion ND as [|? ? Hnotin ND']; subst.
    rewrite dict_set_fresh by (apply Fresh; simpl; auto).
    rewrite IH; [now rewrite <- app_assoc|exact ND'|].
    intros k Hk. unfold keys. rewrite map_app, in_app_iff. simpl.
    intros [Hin|[<-|[]]]; [|contradiction].
    apply (Fresh k); simpl; auto.
Qed.

Lemma py_sum_zero_costs usage : py_sum (values (zero_costs usage)) == 0.
Proof.
  induction usage as [|e rest IH]; simpl.
  - reflexivity.
  - rewrite py_sum_cons. unfold values, zero_costs in IH. rewrite IH. ring.
Qed.

Lemma no_usage_summary plan usage limit deductible :
  NoDup (keys usage) ->
  no_usage usage ->
  getitem (out_of_pocket_limit plan) "individual" = inr (VNum limit) ->
  0 <= limit ->
  getitem (deductibles plan) "overall" = inr deductible ->
  calculate_service_costs plan usage = inr (zero_costs usage) /\
  exists summary,
    calculate_annual_cost plan usage = inr summary /\
    per_service_costs summary = zero_costs usage /\
    medical_costs summary == 0 /\
    total_cost summary == premium plan * 12.
Proof.
  intros ND Z L Pos D.
  assert (C : calculate_service_costs plan usage = inr (zero_costs usage)).
  { unfold calculate_service_costs. rewrite L, D. cbn [bind].
    rewrite (first_pass_no_usage _ _ _ _ Z). cbn [bind].
    rewrite zero_costs_fold by (auto; intros k _ []).
    simpl. apply second_pass_under with (limit := limit); [reflexivity|exact Pos]. }
  split; [exact C|].
  pose proof (py_sum_zero_costs usage) as S.
  assert (A : Qle_bool (premium plan * 12 + py_sum (values (zero_costs usage)))
                (premium plan * 12 + limit + (1 # 100)) = true).
  { apply Qle_bool_iff. lra. }
  eexists. split.
  - unfold calculate_annual_cost. rewrite C. cbn [bind].
    unfold getnum. rewrite L. cbn [bind as_num ret]. rewrite A. reflexivity.
  - simpl. split; [reflexivity|]. split; [exact S|]. lra.
Qed.


(** X1. With no units of any service and a non-negative limit, the
    allocator returns a zero cost for every service of the usage, without
    looking at the cost-sharing rules of the plan, and the aggregator's
    total cost is the annual premium. *)
Theorem no_usage_costs_nothing plan usage limit deductible :
  NoDup (keys usage) ->
  no_usage usage ->
  getitem (out_of_pocket_limit plan) "individual" = inr (VNum limit) ->
  0 <= limit ->
  getitem (deductibles plan) "overall" = inr deductible ->
  calculate_service_costs plan usage = inr (zero_costs usage) /\
  exists summary,
    calculate_annual_cost plan usage = inr summary /\
    per_service_costs summary = zero_costs usage /\
    medical_costs summary == 0 /\
    total_cost summary == premium plan * 12.
Proof. apply no_usage_summary. Qed.

Lemma no_usage_costs_nothing_witness :
  calculate_service_costs scenario_plan
    [("lab_work"%string, 0%Z); ("ambulance"%string, 0%Z)]
  = inr (zero_costs [("lab_work"%string, 0%Z); ("ambulance"%string, 0%Z)]).
Proof.
  apply (no_usage_costs_nothing scenario_plan
           [("lab_work"%string, 0%Z); ("ambulance"%string, 0%Z)] 5000 (VNum 1000)).
  - repeat constructor; simpl; intuition discriminate.
  - repeat constructor.
  - reflexivity.
  - unfold Qle; simpl; lia.
  - reflexivity.
Defined.

(** X2. When the out-of-pocket limit is negative and the first pass
    accumulates a total of zero, the second pass divides by zero: the
    allocator and the aggregator raise ZeroDivisionError. *)
Theorem negative_limit_divides_by_zero plan usage limit_value limit deductible t :
  getitem (out_of_pocket_limit plan) "individual" = inr limit_value ->
  as_num limit_value = inr limit ->
  limit < 0 ->
  getitem (deductibles plan) "overall" = inr deductible ->
  first_pass plan deductible usage tracking0 = inr t ->
  accumulated_total t == 0 ->
  calculate_service_costs plan usage = inl ZeroDivisionError /\
  calculate_annual_cost plan usage = inl ZeroDivisionError.
Proof.
  intros L N Neg D F Z.
  assert (C : calculate_service_costs plan usage = inl ZeroDivisionError).
  { unfold calculate_service_costs. rewrite L, D. cbn [bind]. rewrite F. cbn [bind].
    unfold second_pass. rewrite N. cbn [bind].
    assert (O : Qltb limit (accumulated_total t) = true).
    { apply Qltb_true. rewrite Z. exact Neg. }
    rewrite O. unfold py_div.
    assert (E : Qeq_bool (accumulated_total t) 0 = true) by (now apply Qeq_bool_iff).
    rewrite E. reflexivity. }
  split; [exact C|]. unfold calculate_annual_cost. rewrite C. reflexivity.
Qed.

Lemma negative_limit_divides_by_zero_witness :
  calculate_service_costs negative_limit_plan [("primary_care"%string, 0%Z)]
    = inl ZeroDivisionError /\
  calculate_annual_cost negative_limit_plan [("primary_care"%string, 0%Z)]
    = inl ZeroDivisionError.
Proof.
  apply (negative_limit_divides_by_zero negative_limit_plan
           [("primary_care"%string, 0%Z)] (VNum (-1)) (-1) (VNum 1000)
           {| accumulated_deductible := 0; accumulated_total := 0;
              service_costs := [("primary_care"%string, 0)] |}).
  - reflexivity.
  - reflexivity.
  - unfold Qlt; simpl; lia.
  - reflexivity.
  - reflexivity.
  - reflexivity.
Defined.

(** ** One cost per service of the usage *)

Lemma keys_scale ratio costs : keys (scale ratio costs) = keys costs.
Proof. unfold keys, scale. rewrite map_map. reflexivity. Qed.

Lemma second_pass_keys limit_value t costs :
  second_pass limit_value t = inr costs -> keys costs = keys (service_costs t).
Proof.
  unfold second_pass. intro H. ok_steps H.
  destruct (Qltb a (accumulated_total t)).
  - ok_steps H. destruct (Qltb _ _); [|discriminate].
    injection H as <-. apply (keys_scale a0).
  - injection H as <-. reflexivity.
Qed.

Lemma result_has_usage_services_keys plan usage costs :
  NoDup (keys usage) ->
  calculate_service_costs plan usage = inr costs ->
  keys costs = keys usage.
Proof.
  intros ND H. unfold calculate_service_costs in H. ok_steps H.
  rewrite (second_pass_keys _ _ _ H).
  pose proof (first_pass_balanced _ _ _ _ _ Ha1 ND
                (fun k _ (H : In k []) => H) balanced0) as [_ K].
  exact K.
Qed.


(** X3. Whenever the allocator returns, its result has exactly the
    services of the usage as keys, in the order of the usage, whether or
    not the costs were scaled down. *)
Theorem result_has_usage_services plan usage costs :
  NoDup (keys usage) ->
  calculate_service_costs plan usage = inr costs ->
  keys costs = keys usage.
Proof. apply result_has_usage_services_keys. Qed.

Lemma result_has_usage_services_witness :
  keys (scale (500 / 810) [("primary_care"%string, 60); ("specialist"%string, 750)])
  = keys scenario_usage.
Proof.
  apply (result_has_usage_services tight_plan scenario_usage).
  - repeat constructor; simpl; intuition discriminate.
  - vm_compute. reflexivity.
Defined.

(** ** The deductible accumulator stays within the deductible *)

Lemma price_service_within plan deductible d acc service visits p :
  as_num deductible = inr d ->
  (0 <= visits)%Z ->
  0 <= acc -> acc <= py_max 0 d ->
  price_service plan deductible acc service visits = inr p ->
  acc <= deductible_after p /\ deductible_after p <= py_max 0 d.
Proof.
  intros D V A0 A1 H. unfold price_service in H.
  destruct (lookup base_service_costs service) as [|u] eqn:U; [discriminate|].
  cbn [bind] in H.
  pose proof (base_price_pos _ _ U) as Up.
  assert (B0 : 0 <= inject_Z (u * visits)) by (apply inject_Z_nonneg; nia).
  destruct (resolve plan service) as [|inw]; [discriminate|]. cbn [bind] in H.
  destruct (contains "copay" inw) as [|[|]] eqn:C; [discriminate| |];
    cbn [bind] in H.
  - ok_steps H. injection H as <-. simpl. split; lra.
  - destruct (existsb (String.eqb service) _).
    + destruct (String.eqb service "generic_drugs");
        ok_steps H; injection H as <-; simpl; split; lra.
    + destruct (existsb (String.eqb service) _).
      * ok_steps H. injection H as <-. simpl. split; lra.
      * destruct (deductible_subject_shape _ _ _ _ _ _ _ D C B0 H)
          as (dp & E1 & E2 & _).
        rewrite E1, E2.
        destruct (py_max_cases 0 d) as [[M1 R1]|[M1 R1]]; rewrite R1 in *;
          destruct (py_max_cases 0 (d - acc)) as [[M2 R2]|[M2 R2]]; rewrite R2;
          destruct (py_min_cases (inject_Z (u * visits)) (d - acc)) as [[M3 R3]|[M3 R3]];
          destruct (py_min_cases (inject_Z (u * visits)) 0) as [[M4 R4]|[M4 R4]];
          rewrite ?R3, ?R4; split; lra.
Qed.

(** X4. For non-negative unit counts, the first pass never lets the
    deductible accumulator leave the range from 0 to the plan's deductible
    (0 when the deductible is negative), and never decreases it. *)
Theorem deductible_never_exceeded plan deductible d usage : forall t t',
  as_num deductible = inr d ->
  Forall (fun e => (0 <= snd e)%Z) usage ->
  0 <= accumulated_deductible t ->
  accumulated_deductible t <= py_max 0 d ->
  first_pass plan deductible usage t = inr t' ->
  accumulated_deductible t <= accumulated_deductible t' /\
  accumulated_deductible t' <= py_max 0 d.
Proof.
  induction usage as [|[service visits] rest IH]; simpl; intros t t' D V A0 A1 H.
  - injection H as <-. split; [apply Qle_refl | exact A1].
  - inversion V as [|? ? V0 Vr]; subst. simpl in V0. ok_steps H.
    assert (S : accumulated_deductible t <= accumulated_deductible a /\
                accumulated_deductible a <= py_max 0 d).
    { unfold iteration in Ha. destruct (visits =? 0)%Z.
      - injection Ha as <-. simpl. split; [apply Qle_refl | exact A1].
      - ok_steps Ha. injection Ha as <-. simpl.
        eapply price_service_within; eauto. }
    destruct S as [S1 S2].
    destruct (IH a t' D Vr) as [I1 I2]; [lra | exact S2 | exact H |].
    split; lra.
Qed.

Lemma deductible_never_exceeded_witness :
  exists t',
    first_pass split_plan (VNum 500)
      [("primary_care"%string, 2%Z); ("urgent_care"%string, 2%Z)] tracking0 = inr t' /\
    accumulated_deductible tracking0 <= accumulated_deductible t' /\
    accumulated_deductible t' <= py_max 0 500.
Proof.
  destruct (first_pass split_plan (VNum 500)
              [("primary_care"%string, 2%Z); ("urgent_care"%string, 2%Z)] tracking0)
    as [e|t'] eqn:F.
  - vm_compute in F. discriminate F.
  - exists t'. split; [reflexivity|].
    apply (deductible_never_exceeded split_plan (VNum 500) 500
             [("primary_care"%string, 2%Z); ("urgent_care"%string, 2%Z)] tracking0 t').
    + reflexivity.
    + repeat constructor; simpl; lia.
    + simpl. unfold Qle; simpl; lia.
    + vm_compute. discriminate.
    + exact F.
Defined.

(** ** Services covered before the deductible *)

(** X5. A service listed as covered before the deductible, with no copay
    field and outside the drug categories, is charged its coinsurance share
    of the full base cost and leaves the deductible accumulator untouched,
    whatever the accumulator and whatever the plan's deductible (which is
    not even read). *)
Theorem covered_before_deductible
    plan deductible t service visits unit_price in_network c :
  lookup base_service_costs service = inr unit_price ->
  resolve plan service = inr in_network ->
  contains "copay" in_network = inr false ->
  getnum in_network "coinsurance" = inr c ->
  existsb (String.eqb service) ["generic_drugs"; "specialty_drugs"]%string = false ->
  existsb (String.eqb service) (services_covered_before_deductible plan) = true ->
  exists t' charged,
    iteration plan deductible t service visits = inr t' /\
    dict_get (service_costs t') service = Some charged /\
    charged == inject_Z (unit_price * visits) * (c / 100) /\
    accumulated_deductible t' = accumulated_deductible t /\
    accumulated_total t' == accumulated_total t + charged.
Proof.
  intros U R C G Drug Covered. unfold iteration.
  destruct (Z.eqb_spec visits 0) as [Z|NZ].
  - eexists. exists 0. split; [reflexivity|]. simpl.
    rewrite dict_get_set_same. split; [reflexivity|]. subst visits.
    rewrite Z.mul_0_r. split; [change (inject_Z 0) with 0; ring|].
    split; [reflexivity | ring].
  - unfold price_service. rewrite U, R. cbn [bind]. rewrite C. cbn [bind].
    rewrite Drug, Covered, G. cbn [bind].
    eexists. eexists. split; [reflexivity|]. simpl.
    rewrite dict_get_set_same. split; [reflexivity|].
    split; [reflexivity|]. split; reflexivity.
Qed.

Lemma covered_before_deductible_witness :
  exists t' charged,
    iteration exempt_plan (VNum 1000) tracking0 "specialist" 3 = inr t' /\
    dict_get (service_costs t') "specialist" = Some charged /\
    charged == inject_Z (250 * 3) * (20 / 100) /\
    accumulated_deductible t' = accumulated_deductible tracking0 /\
    accumulated_total t' == accumulated_total tracking0 + charged.
Proof.
  apply (covered_before_deductible exempt_plan (VNum 1000) tracking0 "specialist" 3
           250 (VDict [("coinsurance"%string, VNum 20)]) 20); reflexivity.
Defined.

(** ** No negative charge, and the clawback only lowers charges *)

Lemma dict_set_Forall (P : Q -> Prop) (d : dict Q) k v :
  Forall P (values d) -> P v -> Forall P (values (dict_set d k v)).
Proof.
  induction d as [|[k' v'] d IH]; simpl; intros F Pv.
  - constructor; [exact Pv | constructor].
  - inversion F as [|? ? Pv' F']; subst.
    destruct (String.eqb k k'); simpl; constructor; auto.
Qed.

Lemma first_pass_nonneg plan deductible usage : forall t t',
  sane plan ->
  Forall (fun e => (0 <= snd e)%Z) usage ->
  Forall (fun v => 0 <= v) (values (service_costs t)) ->
  first_pass plan deductible usage t = inr t' ->
  Forall (fun v => 0 <= v) (values (service_costs t')).
Proof.
  induction usage as [|[service visits] rest IH]; simpl; intros t t' S V F H.
  - injection H as <-. exact F.
  - inversion V as [|? ? V0 Vr]; subst. simpl in V0. ok_steps H.
    apply (IH a t' S Vr); [|exact H].
    unfold iteration in Ha. destruct (Z.eqb_spec visits 0) as [Z|NZ].
    + injection Ha as <-. simpl. apply dict_set_Forall; [exact F | apply Qle_refl].
    + ok_steps Ha. injection Ha as <-. simpl. apply dict_set_Forall; [exact F|].
      assert (P : (0 < visits)%Z) by lia.
      destruct (price_service_bounds _ _ _ _ _ _ S P Ha0) as [B1 B2]. lra.
Qed.

Lemma dict_get_values {V} (P : V -> Prop) (d : dict V) k v :
  Forall P (values d) -> dict_get d k = Some v -> P v.
Proof.
  intros F G. apply dict_get_In in G.
  rewrite Forall_forall in F. apply F. unfold values.
  apply in_map_iff. exists (k, v). auto.
Qed.

(** X6. For a plan whose rule amounts are non-negative, a non-negative
    limit and non-negative unit counts, every cost that the allocator
    returns is non-negative and at most the cost that the first pass
    computed for the same service: the out-of-pocket scaling never raises a
    charge. *)
Theorem charges_bounded plan usage limit deductible t costs :
  sane plan ->
  NoDup (keys usage) ->
  Forall (fun e => (0 <= snd e)%Z) usage ->
  getitem (out_of_pocket_limit plan) "individual" = inr (VNum limit) ->
  0 <= limit ->
  getitem (deductibles plan) "overall" = inr deductible ->
  first_pass plan deductible usage tracking0 = inr t ->
  calculate_service_costs plan usage = inr costs ->
  forall service before,
    dict_get (service_costs t) service = Some before ->
    exists after,
      dict_get costs service = Some after /\ 0 <= after /\ after <= before.
Proof.
  intros S ND V L Pos D F C service before G.
  assert (NN : Forall (fun v => 0 <= v) (values (service_costs t))).
  { apply (first_pass_nonneg plan deductible usage tracking0 t S V); [constructor|exact F]. }
  pose proof (dict_get_values _ _ _ _ NN G) as B0. cbv beta in B0.
  destruct (calculate_service_costs_total _ _ _ _ _ ND L Pos D F)
    as (costs' & C' & _ & Under & Over).
  assert (costs' = costs) by congruence. subst costs'.
  destruct (Qlt_le_dec limit (accumulated_total t)) as [O|U].
  - destruct (Over O) as [E _]. subst costs.
    exists (before * (limit / accumulated_total t)). split.
    + unfold scale. rewrite (dict_get_map (fun x => x * (limit / accumulated_total t))).
      now rewrite G.
    + assert (R0 : 0 <= limit / accumulated_total t).
      { unfold Qdiv. apply Qmult_le_0_compat; [exact Pos|].
        apply Qinv_le_0_compat. lra. }
      assert (R1 : limit / accumulated_total t <= 1).
      { apply Qle_shift_div_r; lra. }
      set (r := limit / accumulated_total t) in *.
      pose proof (Qmult_le_0_compat _ _ B0 R0).
      assert (0 <= before * (1 - r)).
      { apply Qmult_le_0_compat; lra. }
      split; lra.
  - rewrite (Under U). exists before. split; [exact G|]. split; [exact B0|apply Qle_refl].
Qed.

Lemma charges_bounded_witness :
  exists after,
    dict_get (scale (500 / 810)
                [("primary_care"%string, 60); ("specialist"%string, 750)])
             "specialist" = Some after /\
    0 <= after /\ after <= 750.
Proof.
  apply (charges_bounded tight_plan scenario_usage 500 (VNum 1000)
           {| accumulated_deductible := 750;
              accumulated_total := 810;
              service_costs := [("primary_care"%string, 60); ("specialist"%string, 750)] |}
           (scale (500 / 810) [("primary_care"%string, 60); ("specialist"%string, 750)])).
  - apply saneb_sound. vm_compute. reflexivity.
  - repeat constructor; simpl; intuition discriminate.
  - repeat constructor; simpl; lia.
  - reflexivity.
  - unfold Qle; simpl; lia.
  - reflexivity.
  - vm_compute. reflexivity.
  - vm_compute. reflexivity.
  - reflexivity.
Defined.

(** ** Under the limit nothing is scaled *)

(** X7. When the total accumulated by the first pass does not exceed the
    out-of-pocket limit, the allocator returns the first-pass costs as they
    are, and the aggregator's medical costs are that total. *)
Theorem under_limit_unchanged plan usage limit_value limit deductible t :
  NoDup (keys usage) ->
  getitem (out_of_pocket_limit plan) "individual" = inr limit_value ->
  as_num limit_value = inr limit ->
  getitem (deductibles plan) "overall" = inr deductible ->
  first_pass plan deductible usage tracking0 = inr t ->
  accumulated_total t <= limit ->
  calculate_service_costs plan usage = inr (service_costs t) /\
  exists summary,
    calculate_annual_cost plan usage = inr summary /\
    per_service_costs summary = service_costs t /\
    medical_costs summary == accumulated_total t /\
    total_cost summary == premium plan * 12 + accumulated_total t.
Proof.
  intros ND L N D F U.
  pose proof (first_pass_balanced _ _ _ _ _ F ND
                (fun k _ (H : In k []) => H) balanced0) as [B _].
  unfold balanced in B.
  assert (C : calculate_service_costs plan usage = inr (service_costs t)).
  { unfold calculate_service_costs. rewrite L, D. cbn [bind]. rewrite F. cbn [bind].
    now apply second_pass_under with (limit := limit). }
  split; [exact C|].
  assert (A : Qle_bool (premium plan * 12 + py_sum (values (service_costs t)))
                (premium plan * 12 + limit + (1 # 100)) = true).
  { apply Qle_bool_iff. lra. }
  eexists. split.
  - unfold calculate_annual_cost. rewrite C. cbn [bind].
    unfold getnum. rewrite L. cbn [bind]. rewrite N. cbn [bind]. rewrite A. reflexivity.
  - simpl. split; [reflexivity|]. split; [exact B|]. rewrite B. reflexivity.
Qed.

Lemma under_limit_unchanged_witness :
  calculate_service_costs scenario_plan scenario_usage
  = inr [("primary_care"%string, 60); ("specialist"%string, 750)].
Proof.
  apply (under_limit_unchanged scenario_plan scenario_usage (VNum 5000) 5000
           (VNum 1000)
           {| accumulated_deductible := 750;
              accumulated_total := 810;
              service_costs := [("primary_care"%string, 60); ("specialist"%string, 750)] |}).
  - repeat constructor; simpl; intuition discriminate.
  - reflexivity.
  - reflexivity.
  - reflexivity.
  - vm_compute. reflexivity.
  - simpl. unfold Qle; simpl; lia.
Defined.

(** ** More usage never costs less *)






(** * Further properties of the curve generator *)

(** X9. With a negative number of points the generator returns two empty
    lists: nothing is divided and the plan is not consulted. *)
Theorem negative_points_empty_curve plan max_medical_cost points :
  (points < 0)%Z ->
  generate_cost_curve_data plan max_medical_cost points = inr ([], []).
Proof.
  intro N. unfold generate_cost_curve_data, cost_levels, range.
  replace (Z.to_nat (points + 1)) with 0%nat by lia. reflexivity.
Qed.

Lemma negative_points_empty_curve_witness :
  generate_cost_curve_data scenario_plan 50000 (-3) = inr ([], []).
Proof. apply negative_points_empty_curve. lia. Defined.

Lemma synthesize_nonpositive raw_cost :
  raw_cost <= 0 -> no_usage (synthesize raw_cost).
Proof.
  intro H. unfold no_usage, synthesize, fractional_usage.
  apply Qltb_false in H. rewrite H. repeat constructor.
Qed.

(** X10. For a plan with a non-negative limit, every point of the curve
    whose raw cost level is not positive (the first point, and every point
    of a sweep with a non-positive maximum) has the annual premium as its
    total: no service is used there. *)
Theorem curve_starts_at_premium
    plan max_medical_cost points levels totals limit i raw_cost total :
  getitem (out_of_pocket_limit plan) "individual" = inr (VNum limit) ->
  0 <= limit ->
  generate_cost_curve_data plan max_medical_cost points = inr (levels, totals) ->
  nth_error levels i = Some raw_cost ->
  nth_error totals i = Some total ->
  raw_cost <= 0 ->
  total == premium plan * 12.
Proof.
  intros L Pos G Li Ti R. unfold generate_cost_curve_data in G.
  apply bind_inr in G. destruct G as (levels' & _ & G).
  apply bind_inr in G. destruct G as (totals' & C & G).
  injection G as -> ->.
  pose proof (curve_totals_points _ _ _ C) as F.
  destruct (Forall2_nth_error _ _ _ F _ _ _ Li Ti) as (s & H & ->).
  pose proof H as H'. unfold calculate_annual_cost in H'.
  apply bind_inr in H'. destruct H' as (costs & Cs & _).
  unfold calculate_service_costs in Cs. ok_steps Cs.
  destruct (no_usage_summary plan (synthesize raw_cost) limit a0
              (synthesize_keys raw_cost) (synthesize_nonpositive _ R) L Pos Ha0)
    as (_ & s' & H2 & _ & _ & T).
  assert (s' = s) by congruence. subst s'. exact T.
Qed.

Lemma curve_starts_at_premium_witness :
  exists levels totals raw_cost total,
    generate_cost_curve_data copay_plan 50000 100 = inr (levels, totals) /\
    nth_error levels 0 = Some raw_cost /\
    nth_error totals 0 = Some total /\
    total == premium copay_plan * 12.
Proof.
  destruct (generate_cost_curve_data copay_plan 50000 100)
    as [e|[levels totals]] eqn:G; [vm_compute in G; discriminate G|].
  destruct (nth_error levels 0) as [raw_cost|] eqn:Li;
    [|vm_compute in G; injection G as <- _; discriminate Li].
  destruct (nth_error totals 0) as [total|] eqn:Ti;
    [|vm_compute in G; injection G as _ <-; discriminate Ti].
  exists levels, totals, raw_cost, total.
  split; [reflexivity|]. split; [exact Li|]. split; [exact Ti|].
  apply (curve_starts_at_premium copay_plan 50000 100 levels totals 6000 0%nat
           raw_cost total).
  - reflexivity.
  - unfold Qle; simpl; lia.
  - exact G.
  - exact Li.
  - exact Ti.
  - vm_compute in G. injection G as <- _. simpl in Li. injection Li as <-.
    unfold Qle; simpl; lia.
Defined.

(** ** The synthesized usage adds up to the raw cost *)

Lemma rounded_share (raw k p : Q) :
  0 <= raw -> 0 <= k -> 0 < p ->
  - ((1 # 2) * p) <= p * inject_Z (py_round (py_max 0 (raw * k / p))) - raw * k /\
  p * inject_Z (py_round (py_max 0 (raw * k / p))) - raw * k <= (1 # 2) * p.
Proof.
  intros R K P.
  pose proof (share_nonneg raw k p R K P) as X.
  assert (E : p * (raw * k / p) == raw * k) by (field; lra).
  pose proof (py_round_nearest (py_max 0 (raw * k / p))) as N.
  apply Qabs_Qle_condition in N. destruct N as [N1 N2].
  destruct (py_max_cases 0 (raw * k / p)) as [[M Em]|[M Em]]; rewrite Em in *.
  - set (x := raw * k / p) in *.
    set (n := inject_Z (py_round x)) in *.
    assert (A1 : 0 <= p * (n - x + (1 # 2))) by (apply Qmult_le_0_compat; lra).
    assert (A2 : 0 <= p * ((1 # 2) - (n - x))) by (apply Qmult_le_0_compat; lra).
    split; lra.
  - set (x := raw * k / p) in *.
    set (n := inject_Z (py_round 0)) in *.
    assert (Z : x == 0) by lra.
    assert (PZ : p * x == 0) by (rewrite Z; ring).
    assert (A1 : 0 <= p * (n - 0 + (1 # 2))) by (apply Qmult_le_0_compat; lra).
    assert (A2 : 0 <= p * ((1 # 2) - (n - 0))) by (apply Qmult_le_0_compat; lra).
    split; lra.
Qed.

Ltac share_bounds raw R :=
  repeat match goal with
         | |- context [py_round (py_max 0 (raw * ?k / ?p))] =>
             let B := fresh "B" in
             assert (B := rounded_share raw k p (Qlt_le_weak _ _ R)
                            ltac:(constant_bound) ltac:(constant_bound));
             destruct B;
             let n := fresh "n" in
             set (n := inject_Z (py_round (py_max 0 (raw * k / p)))) in *
         end.

(** X11. For a positive raw cost, the fractional usage of its tier, priced
    at the base prices, adds up to exactly the raw cost; the rounded usage
    that is fed to the aggregator is within half the sum of the base prices
    of the tier's services of it: $90 in the low tier, $465 in the medium
    tier and $2325 in the high tier. *)
Theorem usage_adds_up_to_raw_cost (raw_cost : Q) :
  0 < raw_cost ->
  base_cost_of (fractional_usage raw_cost) == raw_cost /\
  Qabs (base_cost_of (synthesized_units raw_cost) - raw_cost)
    <= tier_slack (tier_of raw_cost).
Proof.
  intro R. unfold synthesized_units, synthesize, fractional_usage, tier_of, tier_slack.
  apply Qltb_true in R as Rb. rewrite Rb.
  destruct (Qle_bool raw_cost 1000); [|destruct (Qle_bool raw_cost 5000)].
  - split.
    + simpl. field.
    + apply Qabs_Qle_condition. cbn [map fst snd base_cost_of].
      change (py_round (py_max 0 0)) with 0%Z.
      cbn [dict_get base_service_costs String.eqb Ascii.eqb Bool.eqb].
      share_bounds raw_cost R. change (inject_Z 0) with 0.
      change (inject_Z 150) with 150 in *. change (inject_Z 30) with 30 in *.
      split; lra.
  - split.
    + simpl. field.
    + apply Qabs_Qle_condition. cbn [map fst snd base_cost_of].
      change (py_round (py_max 0 0)) with 0%Z.
      cbn [dict_get base_service_costs String.eqb Ascii.eqb Bool.eqb].
      share_bounds raw_cost R. change (inject_Z 0) with 0.
      change (inject_Z 150) with 150 in *. change (inject_Z 30) with 30 in *.
      change (inject_Z 250) with 250 in *. change (inject_Z 200) with 200 in *.
      change (inject_Z 300) with 300 in *.
      split; lra.
  - split.
    + simpl. field.
    + apply Qabs_Qle_condition. cbn [map fst snd base_cost_of].
      change (py_round (py_max 0 0)) with 0%Z.
      cbn [dict_get base_service_costs String.eqb Ascii.eqb Bool.eqb].
      share_bounds raw_cost R. change (inject_Z 0) with 0.
      change (inject_Z 2500) with 2500 in *. change (inject_Z 1000) with 1000 in *.
      change (inject_Z 250) with 250 in *. change (inject_Z 300) with 300 in *.
      change (inject_Z 600) with 600 in *.
      split; lra.
Qed.

Lemma usage_adds_up_to_raw_cost_witness :
  base_cost_of (fractional_usage 5500) == 5500 /\
  Qabs (base_cost_of (synthesized_units 5500) - 5500) <= tier_slack (tier_of 5500).
Proof.
  apply (usage_adds_up_to_raw_cost 5500). unfold Qlt; simpl; lia.
Defined.

(** * Properties of the page *)

(** ** The service columns of a row add up *)

Lemma sum_without (K : list string) (k0 : string) (v0 : Q) (f : string -> Q) :
  ~ In k0 K ->
  py_sum (map (fun k => if String.eqb k k0 then v0 else f k) K) == py_sum (map f K).
Proof.
  induction K as [|k K IH]; simpl; intro N; [reflexivity|].
  rewrite !py_sum_cons, IH by tauto.
  destruct (String.eqb_spec k k0) as [->|_]; [tauto | reflexivity].
Qed.

Lemma sum_with (K : list string) (k0 : string) (v0 : Q) (f : string -> Q) :
  NoDup K -> In k0 K -> f k0 == 0 ->
  py_sum (map (fun k => if String.eqb k k0 then v0 else f k) K)
  == v0 + py_sum (map f K).
Proof.
  induction K as [|k K IH]; simpl; intros ND I Z; [destruct I|].
  inversion ND as [|? ? Hnotin ND']; subst.
  rewrite !py_sum_cons.
  destruct (String.eqb_spec k k0) as [->|N].
  - rewrite sum_without by exact Hnotin. rewrite Z. ring.
  - destruct I as [->|I]; [contradiction|].
    rewrite IH by assumption. ring.
Qed.

Lemma get_or_absent (d : dict Q) k : ~ In k (keys d) -> get_or d k 0 = 0.
Proof.
  intro N. unfold get_or. destruct (dict_get d k) as [v|] eqn:E; [|reflexivity].
  apply dict_get_In in E. exfalso. apply N. unfold keys.
  apply in_map_iff. exists (k, v). auto.
Qed.

Lemma sum_get_or (d : dict Q) (K : list string) :
  NoDup (keys d) -> NoDup K -> incl (keys d) K ->
  py_sum (map (fun k => get_or d k 0) K) == py_sum (values d).
Proof.
  intros NDd NDK. induction d as [|[k0 v0] d IH]; intro I.
  - simpl. unfold get_or. simpl. clear. induction K as [|k K IH]; simpl.
    + reflexivity.
    + rewrite py_sum_cons, IH. unfold py_sum. simpl. ring.
  - inversion NDd as [|? ? Hnotin NDd']; subst.
    simpl. rewrite py_sum_cons.
    rewrite <- IH; [|exact NDd'|intros k Hk; apply I; simpl; auto].
    rewrite <- (sum_with K k0 v0 (fun k => get_or d k 0) NDK).
    + rewrite (map_ext (fun k => get_or ((k0, v0) :: d) k 0)
                 (fun k => if String.eqb k k0 then v0 else get_or d k 0)).
      * apply Qeq_refl.
      * intro k. unfold get_or. simpl. destruct (String.eqb k k0); reflexivity.
    + apply I. simpl. auto.
    + rewrite get_or_absent by exact Hnotin. reflexivity.
Qed.

(** X12. In the row of a plan, for a usage whose services are among the
    nine priced services, the nine service columns add up to the Medical
    Costs column, the Total Cost column is the Annual Premium column plus
    the Medical Costs column, and the Annual Premium column is twelve times
    the Monthly Premium column. *)
Theorem row_columns_add_up plan usage costs :
  NoDup (keys usage) ->
  incl (keys usage) (keys base_service_costs) ->
  calculate_annual_cost plan usage = inr costs ->
  py_sum (map (amount_of (result_row plan costs)) service_columns)
    == amount_of (result_row plan costs) "Medical Costs" /\
  amount_of (result_row plan costs) "Total Cost"
    == amount_of (result_row plan costs) "Annual Premium"
       + amount_of (result_row plan costs) "Medical Costs" /\
  amount_of (result_row plan costs) "Annual Premium"
    == amount_of (result_row plan costs) "Monthly Premium" * 12.
Proof.
  intros ND I H.
  assert (S : py_sum (map (fun k => get_or (per_service_costs costs) k 0) row_services)
              == medical_costs costs /\
              total_cost costs == annual_premium costs + medical_costs costs /\
              annual_premium costs == premium plan * 12).
  { unfold calculate_annual_cost in H.
    apply bind_inr in H. destruct H as (service_costs & C & H).
    apply bind_inr in H. destruct H as (limit & _ & H).
    destruct (Qle_bool _ _); [|discriminate]. injection H as <-. simpl.
    split; [|split; reflexivity].
    pose proof (result_has_usage_services_keys plan usage service_costs ND C) as K.
    apply (sum_get_or service_costs row_services).
    - rewrite K. exact ND.
    - unfold row_services. repeat constructor; simpl; intuition discriminate.
    - rewrite K. intros k Hk. apply I in Hk. simpl in Hk. simpl. tauto. }
  exact S.
Qed.

Lemma row_columns_add_up_witness :
  exists costs,
    calculate_annual_cost scenario_plan scenario_usage = inr costs /\
    py_sum (map (amount_of (result_row scenario_plan costs)) service_columns)
      == amount_of (result_row scenario_plan costs) "Medical Costs".
Proof.
  destruct (calculate_annual_cost scenario_plan scenario_usage) as [e|costs] eqn:H;
    [vm_compute in H; discriminate H|].
  exists costs. split; [reflexivity|].
  apply (row_columns_add_up scenario_plan scenario_usage costs).
  - repeat constructor; simpl; intuition discriminate.
  - intros k Hk. simpl in Hk. simpl. intuition.
  - exact H.
Defined.

(** ** The form's selection of services covered before the deductible *)

Lemma lookup_key {V} (d : dict V) k v : lookup d k = inr v -> In k (keys d).
Proof.
  unfold lookup. destruct (dict_get d k) as [v'|] eqn:E; [|discriminate].
  intros _. apply dict_get_In in E. unfold keys.
  apply in_map_iff. exists (k, v'). auto.
Qed.

Lemma form_options_match_no_service covered service :
  incl covered form_service_options ->
  In service (keys base_service_costs) ->
  existsb (String.eqb service) covered = false.
Proof.
  intros I S. destruct (existsb (String.eqb service) covered) eqn:E; [|reflexivity].
  apply existsb_exists in E. destruct E as (x & Hx & Ex).
  apply String.eqb_eq in Ex. subst x. apply I in Hx.
  exfalso. simpl in S, Hx.
  repeat (destruct S as [<-|S]; [intuition discriminate|]). exact S.
Qed.

(** X13. The options that the plan form offers for the services covered
    before the deductible are display labels, none of which is the key of a
    priced service: for a plan whose list was selected in the form, no
    service is ever priced as covered before the deductible. *)
Theorem form_selection_exempts_nothing plan deductible acc service visits p :
  incl (services_covered_before_deductible plan) form_service_options ->
  price_service plan deductible acc service visits = inr p ->
  taken p <> CoveredBefore.
Proof.
  intros I H. unfold price_service in H.
  destruct (lookup base_service_costs service) as [|u] eqn:U; [discriminate|].
  cbn [bind] in H.
  rewrite (form_options_match_no_service _ _ I (lookup_key _ _ _ U)) in H.
  ok_steps H. destruct a0.
  - ok_steps H. injection H as <-. discriminate.
  - destruct (existsb _ _).
    + destruct (String.eqb service "generic_drugs");
        ok_steps H; injection H as <-; discriminate.
    + unfold deductible_subject in H. ok_steps H.
      destruct (Qltb 0 _); [destruct (Qltb _ _)|];
        rewrite ?Ha0 in H; cbn [bind] in H;
        ok_steps H; injection H as <-; discriminate.
Qed.

Lemma form_selection_exempts_nothing_witness :
  exists p,
    price_service form_default_plan (VNum 1000) 0 "specialist" 3 = inr p /\
    taken p <> CoveredBefore.
Proof.
  destruct (price_service form_default_plan (VNum 1000) 0 "specialist" 3)
    as [e|p] eqn:H; [vm_compute in H; discriminate H|].
  exists p. split; [reflexivity|].
  apply (form_selection_exempts_nothing form_default_plan (VNum 1000) 0 "specialist" 3).
  - intros k Hk. simpl in Hk. simpl. intuition.
  - exact H.
Defined.

(** ** The emergency scenario *)




(** ** Colours of the insurers *)

Lemma string_le_refl a : string_le a a.
Proof. destruct (String.leb_total a a); assumption. Qed.

Lemma string_le_cases a b : string_le a b <-> a = b \/ String_as_OT.lt a b.
Proof.
  unfold string_le, String.leb. split.
  - destruct (String.compare a b) eqn:E; intro H; try discriminate.
    + left. now apply String_as_OT.cmp_eq.
    + right. now apply String_as_OT.cmp_lt.
  - intros [->|L].
    + assert (E : String.compare b b = Eq) by (now apply String_as_OT.cmp_eq).
      now rewrite E.
    + apply String_as_OT.cmp_lt in L. unfold String_as_OT.cmp in L. now rewrite L.
Qed.

Lemma string_le_trans a b c : string_le a b -> string_le b c -> string_le a c.
Proof.
  rewrite !string_le_cases. intros [->|L1] [->|L2]; auto.
  right. eapply String_as_OT.lt_trans; eauto.
Qed.

Lemma string_le_antisym a b : string_le a b -> string_le b a -> a = b.
Proof. apply String.leb_antisym. Qed.

Lemma insert_sorted_perm x l : Permutation (insert_sorted x l) (x :: l).
Proof.
  induction l as [|y l IH]; simpl; [reflexivity|].
  destruct (String.leb x y); [reflexivity|].
  rewrite IH. apply perm_swap.
Qed.

Lemma sorted_perm l : Permutation (sorted l) l.
Proof.
  induction l as [|x l IH]; simpl; [reflexivity|].
  rewrite insert_sorted_perm. now apply perm_skip.
Qed.

Lemma insert_sorted_sorted x l :
  StronglySorted string_le l -> StronglySorted string_le (insert_sorted x l).
Proof.
  induction 1 as [|y l S IH F]; simpl.
  - repeat constructor.
  - destruct (String.leb x y) eqn:E.
    + constructor; [constructor; assumption|].
      constructor; [exact E|].
      rewrite Forall_forall in *. intros z Hz.
      apply string_le_trans with y; [exact E | auto].
    + constructor; [exact IH|].
      rewrite Forall_forall in *. intros z Hz.
      apply (Permutation_in _ (insert_sorted_perm x l)) in Hz.
      destruct Hz as [<-|Hz]; [|auto].
      destruct (String.leb_total y x) as [H|H]; [exact H|].
      unfold string_le. congruence.
Qed.

Lemma sorted_sorted l : StronglySorted string_le (sorted l).
Proof.
  induction l as [|x l IH]; simpl; [constructor|].
  now apply insert_sorted_sorted.
Qed.

Lemma sorted_unique l1 : forall l2,
  StronglySorted string_le l1 -> StronglySorted string_le l2 ->
  Permutation l1 l2 -> l1 = l2.
Proof.
  induction l1 as [|a t1 IH]; intros l2 S1 S2 P.
  - apply Permutation_nil in P. now subst.
  - destruct l2 as [|b t2].
    { apply Permutation_sym, Permutation_nil in P. discriminate. }
    inversion S1 as [|? ? S1' F1]; subst. inversion S2 as [|? ? S2' F2]; subst.
    rewrite Forall_forall in F1, F2.
    assert (AB : string_le a b).
    { assert (I : In b (a :: t1)).
      { apply (Permutation_in _ (Permutation_sym P)). simpl. auto. }
      destruct I as [->|I]; [apply string_le_refl | auto]. }
    assert (BA : string_le b a).
    { assert (I : In a (b :: t2)).
      { apply (Permutation_in _ P). simpl. auto. }
      destruct I as [->|I]; [apply string_le_refl | auto]. }
    pose proof (string_le_antisym _ _ AB BA) as E. subst b.
    f_equal. apply IH; auto. now apply Permutation_cons_inv in P.
Qed.

(** X15. The colours do not depend on the order in which the insurers are
    given: two arrangements of the same insurers get the same dictionary. *)
Theorem colors_are_consistent colors insurers insurers' :
  Permutation insurers insurers' ->
  get_insurer_colors colors insurers = get_insurer_colors colors insurers'.
Proof.
  intro P. unfold get_insurer_colors. f_equal.
  apply sorted_unique; try apply sorted_sorted.
  rewrite (sorted_perm insurers), (sorted_perm insurers'). exact P.
Qed.

Lemma colors_are_consistent_witness :
  get_insurer_colors ["red"; "green"]%string ["Cigna"; "Aetna"; "Kaiser"]%string
  = get_insurer_colors ["red"; "green"]%string ["Kaiser"; "Cigna"; "Aetna"]%string.
Proof.
  apply colors_are_consistent.
  apply Permutation_sym. apply (Permutation_cons_app [_; _] []). reflexivity.
Defined.

Lemma keys_palette_cycle colors names : forall i,
  keys (palette_cycle colors i names) = names.
Proof.
  induction names as [|n names IH]; intro i; simpl; [reflexivity|].
  f_equal. apply IH.
Qed.

Lemma assign_colors_fresh colors names : forall i assigned,
  colors <> [] ->
  NoDup names ->
  (forall n, In n names -> ~ In n (keys assigned)) ->
  assign_colors colors i names assigned
  = inr (assigned ++ palette_cycle colors i names).
Proof.
  induction names as [|n names IH]; intros i assigned NE ND Fresh; simpl.
  - now rewrite app_nil_r.
  - destruct (List.length colors) as [|m] eqn:Len.
    { destruct colors; [contradiction | discriminate]. }
    inversion ND as [|? ? Hnotin ND']; subst.
    rewrite dict_set_fresh by (apply Fresh; simpl; auto).
    rewrite IH; auto.
    + now rewrite <- app_assoc.
    + intros k Hk. unfold keys. rewrite map_app, in_app_iff. simpl.
      intros [Hin|[<-|[]]]; [|contradiction].
      apply (Fresh k); simpl; auto.
Qed.

Lemma palette_cycle_get colors names : forall i j n,
  NoDup names ->
  nth_error names j = Some n ->
  dict_get (palette_cycle colors i names) n
  = Some (nth ((i + j) mod List.length colors) colors EmptyString).
Proof.
  induction names as [|m names IH]; intros i j n ND H.
  - destruct j; discriminate.
  - inversion ND as [|? ? Hnotin ND']; subst. destruct j as [|j]; simpl in H.
    + injection H as ->. simpl. rewrite String.eqb_refl.
      now rewrite Nat.add_0_r.
    + simpl. destruct (String.eqb_spec n m) as [->|_].
      * exfalso. apply Hnotin. eapply nth_error_In; eauto.
      * rewrite (IH (S i) j n ND' H).
        replace (i + S j)%nat with (S i + j)%nat by lia. reflexivity.
Qed.

Lemma palette_cycle_index colors names i n c :
  dict_get (palette_cycle colors i names) n = Some c ->
  exists j, nth_error names j = Some n.
Proof.
  intro H. apply dict_get_In in H.
  assert (I : In n (keys (palette_cycle colors i names))).
  { unfold keys. apply in_map_iff. exists (n, c). auto. }
  rewrite keys_palette_cycle in I. now apply In_nth_error.
Qed.

Lemma sorted_NoDup l : NoDup l -> NoDup (sorted l).
Proof.
  intro ND. apply (Permutation_NoDup (Permutation_sym (sorted_perm l)) ND).
Qed.

Lemma insurer_colors_table colors insurers :
  colors <> [] ->
  NoDup insurers ->
  get_insurer_colors colors insurers
  = inr (palette_cycle colors 0 (sorted insurers)).
Proof.
  intros NE ND. unfold get_insurer_colors.
  rewrite assign_colors_fresh; auto using sorted_NoDup.
Qed.

(** X16. With a palette that is not empty, every insurer gets a colour of
    the palette: the keys of the result are the insurers in sorted order,
    and the insurer at position [i] of that order gets the colour at
    position [i] modulo the length of the palette. *)
Theorem every_insurer_gets_a_color colors insurers :
  colors <> [] ->
  NoDup insurers ->
  exists assigned,
    get_insurer_colors colors insurers = inr assigned /\
    keys assigned = sorted insurers /\
    Permutation (keys assigned) insurers /\
    forall i insurer,
      nth_error (sorted insurers) i = Some insurer ->
      dict_get assigned insurer
        = Some (nth (i mod List.length colors) colors EmptyString) /\
      In (nth (i mod List.length colors) colors EmptyString) colors.
Proof.
  intros NE ND. exists (palette_cycle colors 0 (sorted insurers)).
  split; [now apply insurer_colors_table|].
  split; [apply keys_palette_cycle|].
  split; [rewrite keys_palette_cycle; apply sorted_perm|].
  intros i insurer H. split.
  - now rewrite (palette_cycle_get colors _ 0 i insurer (sorted_NoDup _ ND) H).
  - apply nth_In. apply Nat.mod_upper_bound.
    destruct colors; [contradiction | discriminate].
Qed.

Lemma every_insurer_gets_a_color_witness :
  exists assigned,
    get_insurer_colors ["red"; "green"]%string ["Cigna"; "Aetna"; "Kaiser"]%string
      = inr assigned /\
    keys assigned = sorted ["Cigna"; "Aetna"; "Kaiser"]%string /\
    Permutation (keys assigned) ["Cigna"; "Aetna"; "Kaiser"]%string /\
    forall i insurer,
      nth_error (sorted ["Cigna"; "Aetna"; "Kaiser"]%string) i = Some insurer ->
      dict_get assigned insurer
        = Some (nth (i mod 2) ["red"; "green"]%string EmptyString) /\
      In (nth (i mod 2) ["red"; "green"]%string EmptyString) ["red"; "green"]%string.
Proof.
  apply (every_insurer_gets_a_color ["red"; "green"]%string
           ["Cigna"; "Aetna"; "Kaiser"]%string).
  - discriminate.
  - repeat constructor; simpl; intuition discriminate.
Defined.

(** X17. When the palette has no repeated colour and at least as many
    colours as there are insurers, different insurers get different
    colours; with more insurers than colours, the first insurer of the
    sorted order shares its colour with the one that comes a palette's
    length after it. *)
Theorem colors_distinct_up_to_palette colors insurers :
  colors <> [] ->
  NoDup colors ->
  NoDup insurers ->
  exists assigned,
    get_insurer_colors colors insurers = inr assigned /\
    ((List.length insurers <= List.length colors)%nat ->
     forall a b c,
       dict_get assigned a = Some c -> dict_get assigned b = Some c -> a = b) /\
    ((List.length colors < List.length insurers)%nat ->
     exists a b c,
       a <> b /\ dict_get assigned a = Some c /\ dict_get assigned b = Some c).
Proof.
  intros NE NDc ND. exists (palette_cycle colors 0 (sorted insurers)).
  split; [now apply insurer_colors_table|].
  pose proof (sorted_NoDup _ ND) as NDs.
  assert (Len : List.length (sorted insurers) = List.length insurers).
  { apply Permutation_length, sorted_perm. }
  assert (Pos : (0 < List.length colors)%nat).
  { destruct colors; [contradiction | simpl; lia]. }
  split.
  - intros Le a b c Ha Hb.
    destruct (palette_cycle_index _ _ _ _ _ Ha) as [i Hi].
    destruct (palette_cycle_index _ _ _ _ _ Hb) as [j Hj].
    rewrite (palette_cycle_get colors _ 0 i a NDs Hi) in Ha.
    rewrite (palette_cycle_get colors _ 0 j b NDs Hj) in Hb.
    assert (Bi : (i < List.length (sorted insurers))%nat).
    { apply nth_error_Some. congruence. }
    assert (Bj : (j < List.length (sorted insurers))%nat).
    { apply nth_error_Some. congruence. }
    simpl in Ha, Hb. rewrite Nat.mod_small in Ha, Hb by lia.
    assert (E : nth i colors EmptyString = nth j colors EmptyString) by congruence.
    apply (proj1 (NoDup_nth colors EmptyString) NDc) in E; [|lia|lia].
    subst j. congruence.
  - intro Lt.
    destruct (nth_error (sorted insurers) 0) as [a|] eqn:Ha.
    2:{ apply nth_error_None in Ha. lia. }
    destruct (nth_error (sorted insurers) (List.length colors)) as [b|] eqn:Hb.
    2:{ apply nth_error_None in Hb. lia. }
    exists a, b, (nth 0 colors EmptyString). split; [|split].
    + intro E. subst b.
      assert (0%nat = List.length colors).
      { apply (proj1 (NoDup_nth_error (sorted insurers)) NDs); [lia|congruence]. }
      lia.
    + rewrite (palette_cycle_get colors _ 0 0 a NDs Ha). simpl.
      now rewrite Nat.Div0.mod_0_l.
    + rewrite (palette_cycle_get colors _ 0 _ b NDs Hb). simpl.
      now rewrite Nat.Div0.mod_same.
Qed.

Lemma colors_distinct_up_to_palette_witness :
  exists assigned,
    get_insurer_colors ["red"; "green"]%string ["Cigna"; "Aetna"; "Kaiser"]%string
      = inr assigned /\
    ((3 <= 2)%nat ->
     forall a b c,
       dict_get assigned a = Some c -> dict_get assigned b = Some c -> a = b) /\
    ((2 < 3)%nat ->
     exists a b c,
       a <> b /\ dict_get assigned a = Some c /\ dict_get assigned b = Some c).
Proof.
  apply (colors_distinct_up_to_palette ["red"; "green"]%string
           ["Cigna"; "Aetna"; "Kaiser"]%string).
  - discriminate.
  - repeat constructor; simpl; intuition discriminate.
  - repeat constructor; simpl; intuition discriminate.
Defined.

(** ** The order of the plans on the page *)

Lemma dict_set_present {V} (d : dict V) k v old :
  dict_get d k = Some old ->
  exists d1 d2,
    d = d1 ++ (k, old) :: d2 /\ dict_set d k v = d1 ++ (k, v) :: d2.
Proof.
  induction d as [|[k' v'] d IH]; simpl; [discriminate|].
  destruct (String.eqb_spec k k') as [->|N]; intro H.
  - injection H as ->. exists [], d. auto.
  - destruct (IH H) as (d1 & d2 & E1 & E2).
    exists ((k', v') :: d1), d2. simpl. now rewrite E1 at 1; rewrite E2.
Qed.

Lemma dict_get_absent {V} (d : dict V) k :
  dict_get d k = None -> ~ In k (keys d).
Proof.
  induction d as [|[k' v'] d IH]; simpl; [tauto|].
  destruct (String.eqb_spec k k') as [->|N]; [discriminate|].
  intros H [E|I]; [congruence | now apply IH].
Qed.

Lemma dict_set_last {V} (d : dict V) k x v :
  ~ In k (keys d) ->
  dict_get (d ++ [(k, x)]) k = Some x /\
  dict_set (d ++ [(k, x)]) k v = d ++ [(k, v)].
Proof.
  induction d as [|[k' v'] d IH]; simpl; intro N.
  - now rewrite String.eqb_refl.
  - destruct (String.eqb_spec k k') as [->|_]; [tauto|].
    destruct IH as [G S]; [tauto|]. now rewrite G, S.
Qed.

(** Adding a plan to the groups. *)
Lemma group_step (insurers : dict (list InsurancePlan)) plan :
  grouped insurers ->
  let insurers0 :=
    match dict_get insurers (insurer plan) with
    | None => dict_set insurers (insurer plan) []
    | Some _ => insurers
    end in
  let insurers' :=
    dict_set insurers0 (insurer plan) (get_or insurers0 (insurer plan) [] ++ [plan]) in
  grouped insurers' /\
  Permutation (List.concat (values insurers')) (List.concat (values insurers) ++ [plan]).
Proof.
  intros [ND Own]. simpl.
  destruct (dict_get insurers (insurer plan)) as [old|] eqn:E.
  - unfold get_or. rewrite E.
    destruct (dict_set_present insurers (insurer plan) (old ++ [plan]) old E)
      as (d1 & d2 & E1 & E2).
    rewrite E2. split; [split|].
    + rewrite E1 in ND. unfold keys in *. rewrite map_app in *. exact ND.
    + intros k l I. apply in_app_iff in I. destruct I as [I|[I|I]].
      * apply Own. rewrite E1. apply in_app_iff. auto.
      * injection I as <- <-. apply Forall_app. split.
        -- apply (Own (insurer plan) old). rewrite E1. apply in_app_iff. simpl. auto.
        -- repeat constructor.
      * apply Own. rewrite E1. apply in_app_iff. simpl. auto.
    + rewrite E1. unfold values. rewrite !map_app. simpl. rewrite !concat_app. simpl.
      rewrite <- !app_assoc. apply Permutation_app_head.
      rewrite (Permutation_app_comm (List.concat (map snd d2)) [plan]).
      rewrite app_assoc. reflexivity.
  - pose proof (dict_get_absent _ _ E) as Fresh.
    rewrite (dict_set_fresh insurers (insurer plan) []) by exact Fresh.
    destruct (dict_set_last insurers (insurer plan) [] ([] ++ [plan]) Fresh) as [G S].
    unfold get_or. rewrite G, S. split; [split|].
    + unfold keys. rewrite map_app. simpl.
      apply NoDup_app; [exact ND | repeat constructor; simpl; tauto|].
      intros x Hx [<-|[]]. contradiction.
    + intros k l I. apply in_app_iff in I. destruct I as [I|[I|[]]].
      * now apply Own.
      * injection I as <- <-. repeat constructor.
    + unfold values. rewrite map_app. simpl. rewrite concat_app. simpl.
      rewrite ?app_nil_r. reflexivity.
Qed.

Lemma group_by_insurer_spec plans : forall insurers,
  grouped insurers ->
  grouped (group_by_insurer plans insurers) /\
  Permutation (List.concat (values (group_by_insurer plans insurers)))
              (List.concat (values insurers) ++ plans).
Proof.
  induction plans as [|plan rest IH]; intros insurers G; simpl.
  - split; [exact G | now rewrite app_nil_r].
  - destruct (group_step insurers plan G) as [G' P'].
    destruct (IH _ G') as [G'' P'']. split; [exact G''|].
    rewrite P'', P'. now rewrite <- app_assoc.
Qed.

Lemma insert_by_premium_perm plan l :
  Permutation (insert_by_premium plan l) (plan :: l).
Proof.
  induction l as [|other l IH]; simpl; [reflexivity|].
  destruct (Qle_bool _ _); [reflexivity|].
  rewrite IH. apply perm_swap.
Qed.

Lemma sort_by_premium_perm l : Permutation (sort_by_premium l) l.
Proof.
  induction l as [|plan l IH]; simpl; [reflexivity|].
  rewrite insert_by_premium_perm. now apply perm_skip.
Qed.

Lemma insert_by_premium_sorted plan l :
  StronglySorted (fun p q => premium p <= premium q) l ->
  StronglySorted (fun p q => premium p <= premium q) (insert_by_premium plan l).
Proof.
  induction 1 as [|other l S IH F]; simpl.
  - repeat constructor.
  - destruct (Qle_bool (premium plan) (premium other)) eqn:E.
    + apply Qle_bool_iff in E.
      constructor; [constructor; assumption|].
      constructor; [exact E|].
      rewrite Forall_forall in *. intros z Hz.
      apply Qle_trans with (premium other); [exact E | auto].
    + constructor; [exact IH|].
      rewrite Forall_forall in *. intros z Hz.
      apply (Permutation_in _ (insert_by_premium_perm plan l)) in Hz.
      destruct Hz as [<-|Hz]; [|auto].
      destruct (Qlt_le_dec (premium plan) (premium other)) as [L|L]; [|exact L].
      apply Qlt_le_weak, Qle_bool_iff in L. congruence.
Qed.

Lemma sort_by_premium_sorted l :
  StronglySorted (fun p q => premium p <= premium q) (sort_by_premium l).
Proof.
  induction l as [|plan l IH]; simpl; [constructor|].
  now apply insert_by_premium_sorted.
Qed.

Lemma sort_groups_spec insurers :
  grouped insurers ->
  grouped (sort_groups insurers) /\
  Permutation (List.concat (values (sort_groups insurers)))
              (List.concat (values insurers)) /\
  forall k l, In (k, l) (sort_groups insurers) ->
    StronglySorted (fun p q => premium p <= premium q) l.
Proof.
  intros [ND Own]. split; [split|split].
  - unfold sort_groups, keys. rewrite map_map. exact ND.
  - intros k l I. unfold sort_groups in I. apply in_map_iff in I.
    destruct I as ([k' l'] & E & I). simpl in E. injection E as <- <-.
    specialize (Own _ _ I). rewrite Forall_forall in *.
    intros p Hp. apply Own.
    apply (Permutation_in _ (sort_by_premium_perm l') Hp).
  - clear. induction insurers as [|[k l] ins IH]; simpl; [reflexivity|].
    apply Permutation_app; [apply sort_by_premium_perm | exact IH].
  - intros k l I. unfold sort_groups in I. apply in_map_iff in I.
    destruct I as ([k' l'] & E & I). simpl in E. injection E as <- <-.
    apply sort_by_premium_sorted.
Qed.

Lemma flat_map_agree {A B} (f g : A -> list B) (l : list A) :
  (forall a, In a l -> f a = g a) -> flat_map f l = flat_map g l.
Proof.
  induction l as [|a l IH]; simpl; intro H; [reflexivity|].
  rewrite H, IH; auto.
Qed.

Lemma flat_map_own_keys {V} (d : dict (list V)) :
  NoDup (keys d) ->
  flat_map (fun k => get_or d k []) (keys d) = List.concat (values d).
Proof.
  induction d as [|[k l] d IH]; simpl; intro ND; [reflexivity|].
  inversion ND as [|? ? Hnotin ND']; subst.
  unfold get_or at 1. simpl. rewrite String.eqb_refl. f_equal.
  rewrite <- IH by exact ND'. apply flat_map_agree.
  intros k' Hk'. unfold get_or. simpl.
  destruct (String.eqb_spec k' k) as [->|_]; [contradiction | reflexivity].
Qed.

Lemma StronglySorted_app_between {A} (R : A -> A -> Prop) l1 l2 :
  StronglySorted R l1 -> StronglySorted R l2 ->
  (forall x y, In x l1 -> In y l2 -> R x y) ->
  StronglySorted R (l1 ++ l2).
Proof.
  induction 1 as [|a l1 S IH F]; simpl; intros S2 B; [exact S2|].
  constructor.
  - apply IH; [exact S2|]. intros x y Hx Hy. apply B; simpl; auto.
  - apply Forall_app. split; [exact F|].
    rewrite Forall_forall. intros y Hy. apply B; simpl; auto.
Qed.

Lemma dict_get_in_keys {V} (d : dict V) k :
  In k (keys d) -> exists v, dict_get d k = Some v /\ In (k, v) d.
Proof.
  induction d as [|[k' v'] d IH]; simpl; [tauto|].
  destruct (String.eqb_spec k k') as [->|N]; intro H.
  - eauto.
  - destruct H as [E|I]; [congruence|].
    destruct (IH I) as (v & G & I'). eauto.
Qed.

Lemma in_display_order_sorted insurers :
  grouped insurers ->
  (forall k l, In (k, l) insurers ->
     StronglySorted (fun p q => premium p <= premium q) l) ->
  StronglySorted shown_before (in_display_order insurers).
Proof.
  intros [ND Own] Sorted. unfold in_display_order.
  pose proof (sorted_sorted (keys insurers)) as SS.
  pose proof (sorted_NoDup _ ND) as NDs.
  assert (Sub : forall k, In k (sorted (keys insurers)) -> In k (keys insurers)).
  { intros k Hk. apply (Permutation_in _ (sorted_perm _) Hk). }
  induction (sorted (keys insurers)) as [|k ks IH]; simpl; [constructor|].
  inversion SS as [|? ? SS' F]; subst. inversion NDs as [|? ? Hnotin NDs']; subst.
  assert (Group : forall k0, In k0 (keys insurers) ->
            Forall (fun p => insurer p = k0) (get_or insurers k0 []) /\
            StronglySorted (fun p q => premium p <= premium q) (get_or insurers k0 [])).
  { intros k0 Hk0. destruct (dict_get_in_keys _ _ Hk0) as (l & G & I).
    unfold get_or. rewrite G. split; [eapply Own | eapply Sorted]; eauto. }
  destruct (Group k) as [Gk Sk]; [apply Sub; simpl; auto|].
  apply StronglySorted_app_between.
  - clear - Gk Sk. rewrite Forall_forall in Gk.
    induction Sk as [|p l S IH F]; constructor.
    + apply IH. intros x Hx. apply Gk. simpl. auto.
    + rewrite Forall_forall in *. intros q Hq. right. split; [|auto].
      rewrite (Gk p), (Gk q); simpl; auto.
  - apply IH; auto. intros k0 Hk0. apply Sub. simpl. auto.
  - intros x y Hx Hy. apply in_flat_map in Hy. destruct Hy as (k2 & Hk2 & Hy).
    destruct (Group k2) as [Gk2 _]; [apply Sub; simpl; auto|].
    rewrite Forall_forall in Gk, Gk2, F.
    unfold shown_before. rewrite (Gk x Hx), (Gk2 y Hy). left. split; [|auto].
    intros ->. contradiction.
Qed.

Lemma display_order_spec plans :
  Permutation (display_order plans) (values plans) /\
  StronglySorted shown_before (display_order plans).
Proof.
  unfold display_order.
  assert (G0 : grouped ([] : dict (list InsurancePlan))).
  { split; [constructor | intros k l []]. }
  destruct (group_by_insurer_spec (values plans) [] G0) as [G1 P1].
  destruct (sort_groups_spec _ G1) as (G2 & P2 & S2).
  split.
  - unfold in_display_order.
    rewrite (Permutation_flat_map _ (sorted_perm _)).
    rewrite flat_map_own_keys by apply G2.
    rewrite P2, P1. reflexivity.
  - now apply in_display_order_sorted.
Qed.

(** X18. The comparison table and the cost curves go through the plans of
    the session in one order: every plan exactly once, the insurers in
    sorted order, and the plans of one insurer by non-decreasing premium. *)
Theorem every_plan_shown_once_in_order plans :
  Permutation (display_order plans) (values plans) /\
  StronglySorted shown_before (display_order plans) /\
  forall usage rows,
    comparison_results plans usage = inr rows ->
    map (fun row => dict_get row "Plan"%string) rows
    = map (fun plan => Some (Text (name plan))) (display_order plans).
Proof.
  destruct (display_order_spec plans) as [P S].
  split; [exact P|]. split; [exact S|].
  intros usage rows. unfold comparison_results.
  generalize (display_order plans). intro l. revert rows.
  induction l as [|plan l IH]; simpl; intros rows H.
  - injection H as <-. reflexivity.
  - ok_steps H. injection H as <-. simpl. f_equal. now apply IH.
Qed.

Lemma comparison_rows_fail usage plans plan e :
  In plan plans ->
  calculate_annual_cost plan usage = inl e ->
  exists e', comparison_rows usage plans = inl e'.
Proof.
  induction plans as [|p rest IH]; simpl; intros I H; [destruct I|].
  destruct (calculate_annual_cost p usage) as [e0|costs] eqn:C; cbn [bind]; [eauto|].
  destruct I as [->|I]; [congruence|].
  destruct (IH I H) as [e' E]. rewrite E. cbn [bind]. eauto.
Qed.

(** X19. When the aggregator raises for one plan of the session, the
    comparison table raises as well: no row is produced for any plan. *)
Theorem one_failing_plan_fails_the_table plans usage key plan e :
  In (key, plan) plans ->
  calculate_annual_cost plan usage = inl e ->
  exists e', comparison_results plans usage = inl e'.
Proof.
  intros I H. unfold comparison_results.
  apply (comparison_rows_fail usage _ plan e); [|exact H].
  apply (Permutation_in _ (Permutation_sym (proj1 (display_order_spec plans)))).
  unfold values. apply in_map_iff. exists (key, plan). auto.
Qed.

Lemma one_failing_plan_fails_the_table_witness :
  exists e',
    comparison_results session_plans [("lab_work"%string, 1%Z)] = inl e'.
Proof.
  apply (one_failing_plan_fails_the_table session_plans [("lab_work"%string, 1%Z)]
           "Scenario" scenario_plan (KeyError "diagnostic_test")).
  - simpl. auto.
  - vm_compute. reflexivity.
Defined.

(** ** Stored plans *)

(** X20. What [to_dict] writes cannot be read back by the loader: it
    stores the name under [name] and the type under [type], and the loader
    asks for [plan_name] and [plan_type].  These two keys are the whole
    difference: once both are added, the loader returns the plan with the
    name and the type given under them. *)
Theorem to_dict_is_not_loadable {V} (empty_list : V) (self : plan_object V) :
  load_plan empty_list (to_dict self) = inl (KeyError "plan_name") /\
  (forall n,
     load_plan empty_list (("plan_name"%string, n) :: to_dict self)
     = inl (KeyError "plan_type")) /\
  (forall n t,
     load_plan empty_list
       (("plan_name"%string, n) :: ("plan_type"%string, t) :: to_dict self)
     = inr {| obj_name := n;
              obj_type := t;
              obj_insurer := obj_insurer self;
              obj_premium := obj_premium self;
              obj_deductibles := obj_deductibles self;
              obj_out_of_pocket_limit := obj_out_of_pocket_limit self;
              obj_referral_needed := obj_referral_needed self;
              obj_cost_sharing := obj_cost_sharing self;
              obj_services_covered_before_deductible :=
                obj_services_covered_before_deductible self |}).
Proof.
  split; [reflexivity|]. split.
  - intro n. reflexivity.
  - intros n t. reflexivity.
Qed.

Lemma lookup_present {V} (d : dict V) k :
  In k (keys d) -> exists v, lookup d k = inr v /\ dict_get d k = Some v.
Proof.
  intro I. destruct (dict_get_in_keys _ _ I) as (v & G & _).
  exists v. unfold lookup. now rewrite G.
Qed.

Lemma lookup_absent {V} (d : dict V) k :
  ~ In k (keys d) -> lookup d k = inl (KeyError k).
Proof.
  intro N. unfold lookup. destruct (dict_get d k) as [v|] eqn:G; [|reflexivity].
  exfalso. apply N. apply dict_get_In in G. unfold keys.
  apply in_map_iff. exists (k, v). auto.
Qed.

(** X21. The loader raises KeyError for the first required key, in the
    order plan_name, plan_type, insurer, premium, deductibles,
    out_of_pocket_limit, referral_needed, cost_sharing, that the entry
    lacks. *)
Theorem load_plan_first_missing_key {V} (empty_list : V) (plan_data : dict V)
    before key after :
  required_keys = before ++ key :: after ->
  (forall k, In k before -> In k (keys plan_data)) ->
  ~ In key (keys plan_data) ->
  load_plan empty_list plan_data = inl (KeyError key).
Proof.
  intros E Present Missing. unfold load_plan, required_keys in *.
  do 8 (let k := fresh "k" in
        let Ek := fresh "Ek" in
        let Lk := fresh "Lk" in
        let v := fresh "v" in
        destruct before as [|k before];
        [ injection E as <- _; rewrite (lookup_absent _ _ Missing); reflexivity
        | injection E as Ek E;
          destruct (lookup_present plan_data k) as (v & Lk & _);
          [apply Present; simpl; auto|];
          rewrite <- Ek in Lk; rewrite Lk; cbn [bind];
          assert (Present' : forall k', In k' before -> In k' (keys plan_data))
            by (intros k' Hk'; apply Present; simpl; auto);
          clear Present; rename Present' into Present ]).
  destruct before; discriminate E.
Qed.

Lemma load_plan_first_missing_key_witness :
  load_plan 0%Z [("plan_name"%string, 1%Z); ("plan_type"%string, 2%Z)]
  = inl (KeyError "insurer").
Proof.
  apply (load_plan_first_missing_key 0%Z
           [("plan_name"%string, 1%Z); ("plan_type"%string, 2%Z)]
           ["plan_name"; "plan_type"]%string "insurer"
           ["premium"; "deductibles"; "out_of_pocket_limit"; "referral_needed";
            "cost_sharing"]%string).
  - reflexivity.
  - intros k Hk. simpl in Hk. simpl. intuition.
  - simpl. intuition discriminate.
Defined.



(** * When the aggregator returns *)










